(** * Variation Services frequency notebook (plot.ipynb)

    A shallow embedding of the four functions of the notebook that carry
    its logic: [download] (paginated interval download), [maf] (minor
    allele frequency per population), [cross_frequency] (per-allele
    frequencies of two populations) and [build_pop_map] (flattening of the
    population metadata tree), with the properties the specification
    states about them.

    Conventions.
    - A Python [dict] keeps insertion order and the code iterates over
      [.items()]; it is an association list ([pydict]) written to with
      [dict_set] (overwrite in place, or append a new key).
    - A Python [int] is a [Z].
    - [a / b] on two ints is Python's true division.  Python returns the
      binary64 number nearest to the exact quotient; the embedding keeps
      the exact quotient, in lowest terms, as a [Q], and raises
      [ZeroDivisionError] when [b] is 0.  With the non-negative counts
      of the data model every quotient taken by the code lies in [0,1],
      where the rounding cannot overflow.
    - A raised exception is the [Err] of the [result] type; nothing in the
      notebook catches one.
    - A [string] holds the code points of a Python [str], all below 256. *)

From Stdlib Require Import ZArith QArith Qreduction List String Ascii Bool Lia
  Permutation Sorted DecimalString.
Import ListNotations.

Local Open Scope string_scope.
Local Open Scope list_scope.
Local Open Scope Z_scope.

(** ** Exceptions and the error monad *)

Inductive exn : Type :=
| DownloadException (msg : string) (status : Z) (body : string)
    (* Exception("Unable to download data", resp.status_code, resp.content) *)
| MetadataException (msg : string)
    (* Exception("Can't download metadata") *)
| ValueError       (* unpacking [k.split('@')] into two names, or [int(s)] *)
| KeyError (key : string)
| IndexError
| ZeroDivisionError
| JSONError.       (* [resp.json()["results"]] on a body without results *)

Inductive result (A : Type) : Type :=
| Ok (a : A)
| Err (e : exn).
Arguments Ok {A} a.
Arguments Err {A} e.

Definition bind {A B : Type} (m : result A) (k : A -> result B) : result B :=
  match m with
  | Ok a => k a
  | Err e => Err e
  end.

Notation "x <- m ;; k" := (bind m (fun x => k))
  (at level 61, m at next level, right associativity).
Notation "' pat <- m ;; k" := (bind m (fun x => match x with pat => k end))
  (at level 61, pat pattern, m at next level, right associativity).

(** A [for] loop whose body may raise: the first exception ends the loop. *)
Fixpoint for_each {A St : Type} (body : St -> A -> result St)
    (items : list A) (st : St) : result St :=
  match items with
  | [] => Ok st
  | x :: rest => st' <- body st x ;; for_each body rest st'
  end.

(** ** Python dictionaries *)

Module Dict.

Definition pydict (V : Type) : Type := list (string * V).

Definition keys {V} (d : pydict V) : list string := map fst d.
Definition values {V} (d : pydict V) : list V := map snd d.

(** [d[k]], as an option: [None] is the [KeyError] of a plain dict. *)
Fixpoint dict_get {V} (k : string) (d : pydict V) : option V :=
  match d with
  | [] => None
  | (k', v) :: rest => if String.eqb k k' then Some v else dict_get k rest
  end.

(** [k in d] *)
Definition dict_mem {V} (k : string) (d : pydict V) : bool :=
  match dict_get k d with Some _ => true | None => false end.

(** [d[k] = v]: an existing key keeps its place, a new one goes last. *)
Fixpoint dict_set {V} (k : string) (v : V) (d : pydict V) : pydict V :=
  match d with
  | [] => [(k, v)]
  | (k', v') :: rest =>
      if String.eqb k k' then (k', v) :: rest
      else (k', v') :: dict_set k v rest
  end.

(** [d.update(other)] *)
Definition dict_update {V} (d other : pydict V) : pydict V :=
  fold_left (fun acc kv => dict_set (fst kv) (snd kv) acc) other d.

(** [d[k]] where a missing key raises. *)
Definition dict_lookup {V} (k : string) (d : pydict V) : result V :=
  match dict_get k d with
  | Some v => Ok v
  | None => Err (KeyError k)
  end.

(** [d[k].append(x)] on a [defaultdict(list)]. *)
Definition dict_append {V} (k : string) (x : V) (d : pydict (list V))
    : pydict (list V) :=
  match dict_get k d with
  | Some l => dict_set k (l ++ [x]) d
  | None => dict_set k [x] d
  end.

(** The binding written last for [k] in a sequence of writes. *)
Definition last_binding {V} (k : string) (writes : list (string * V))
    : option V :=
  dict_get k (rev writes).

End Dict.
Import Dict.

(** ** Strings: [str.split] and [int] *)

(** [s.split(sep)] for a one-character separator: the pieces between the
    occurrences of [sep], empty pieces included. *)
Fixpoint split_on (sep : ascii) (s : string) : list string :=
  match s with
  | EmptyString => [EmptyString]
  | String c rest =>
      if Ascii.eqb c sep then EmptyString :: split_on sep rest
      else match split_on sep rest with
           | [] => [String c EmptyString]
           | piece :: pieces => String c piece :: pieces
           end
  end.

(** Characters [int] skips around a number: the ASCII white space and, of
    the code points below 256, U+0085 and U+00A0. *)
Definition is_space (c : ascii) : bool :=
  let n := nat_of_ascii c in
  ((9 <=? n) && (n <=? 13) || (n =? 32) || (n =? 133) || (n =? 160))%nat.

Definition digit_of (c : ascii) : option Z :=
  let n := nat_of_ascii c in
  if ((48 <=? n) && (n <=? 57))%nat then Some (Z.of_nat n - 48) else None.

Fixpoint skip_spaces (s : string) : string :=
  match s with
  | String c rest => if is_space c then skip_spaces rest else s
  | EmptyString => s
  end.

Fixpoint all_spaces (s : string) : bool :=
  match s with
  | String c rest => is_space c && all_spaces rest
  | EmptyString => true
  end.

(** The digits of a decimal literal, [acc] being the value read so far and
    the previous character a digit: a single underscore may sit between
    two digits, and white space may close the literal. *)
Fixpoint int_digits (acc : Z) (s : string) : option Z :=
  match s with
  | EmptyString => Some acc
  | String c rest =>
      match digit_of c with
      | Some d => int_digits (10 * acc + d) rest
      | None =>
          if Ascii.eqb c "_" then
            match rest with
            | String c' rest' =>
                match digit_of c' with
                | Some d => int_digits (10 * acc + d) rest'
                | None => None
                end
            | EmptyString => None
            end
          else if all_spaces s then Some acc
          else None
      end
  end.

Definition int_unsigned (s : string) : option Z :=
  match s with
  | String c rest =>
      match digit_of c with
      | Some d => int_digits d rest
      | None => None
      end
  | EmptyString => None
  end.

(** [int(s)] in base 10; [None] is the [ValueError]. *)
Definition py_int (s : string) : option Z :=
  match skip_spaces s with
  | String "+" rest => int_unsigned rest
  | String "-" rest => option_map Z.opp (int_unsigned rest)
  | t => int_unsigned t
  end.

(** [l, s = k.split('@')] followed by [int(s)]. *)
Definition key_position (k : string) : result Z :=
  match split_on "@" k with
  | [_; s] =>
      match py_int s with
      | Some p => Ok p
      | None => Err ValueError
      end
  | _ => Err ValueError
  end.

(** ** Data model *)

(** The value of [counts[project]]: population (biosample id) to allele to
    count. *)
Record project_counts : Type := {
  allele_counts : pydict (pydict Z)
}.

(** A Variant Record: project to its counts block. *)
Record variant_record : Type := {
  counts : pydict project_counts
}.

(** A page of results, and the accumulated dataset: key
    ["<something>@<position>"] to Variant Record. *)
Definition dataset : Type := pydict variant_record.

(** ** Lists of integers: [sort(reverse=True)], [sum], indexing, [/] *)

Fixpoint insert_desc (x : Z) (l : list Z) : list Z :=
  match l with
  | [] => [x]
  | y :: rest => if y <? x then x :: l else y :: insert_desc x rest
  end.

(** [l.sort(reverse=True)] *)
Fixpoint sort_desc (l : list Z) : list Z :=
  match l with
  | [] => []
  | x :: rest => insert_desc x (sort_desc rest)
  end.

(** [sum(l)] *)
Definition sum (l : list Z) : Z := fold_left Z.add l 0.

(** [l[i]] for [i >= 0] *)
Definition list_index {A} (l : list A) (i : nat) : result A :=
  match nth_error l i with
  | Some x => Ok x
  | None => Err IndexError
  end.

(** [a / b] on ints: the exact quotient in lowest terms. *)
Definition py_truediv (a b : Z) : result Q :=
  if b =? 0 then Err ZeroDivisionError
  else Ok (Qred (inject_Z a / inject_Z b)).

(** ** [maf] *)

(** The body of the inner loop of [maf]: the value stored under
    [maf[population]] for the allele counts [ac] of one population. *)
Definition maf_population (ac : pydict Z) : result Q :=
  let counts := sort_desc (values ac) in
  if (List.length counts <=? 1)%nat then Ok 0%Q
  else
    let total := sum counts in
    if total >? 0 then
      c1 <- list_index counts 1 ;;
      py_truediv c1 total
    else Ok 0%Q.

Definition maf (record : variant_record) : result (pydict Q) :=
  for_each
    (fun maf (item : string * project_counts) =>
       for_each
         (fun maf (pop : string * pydict Z) =>
            v <- maf_population (snd pop) ;;
            Ok (dict_set (fst pop) v maf))
         (allele_counts (snd item)) maf)
    (counts record) [].

(** ** [download] *)

(** The GET of
    [.../interval/{seq_id}:{start}:{length}/overlapping_frequency_records],
    by the three values put into the URL. *)
Record request : Type := {
  req_seq_id : string;
  req_start : Z;
  req_length : Z
}.

(** What [download] reads of a response: [resp.status_code],
    [resp.content], and [resp.json()["results"]] ([None] when the body has
    no such field). *)
Record response : Type := {
  status_code : Z;
  content : string;
  json_results : option dataset
}.

(** Where one pass through the body of [while True] leaves the loop. *)
Inductive outcome : Type :=
| Returned (data : dataset)
| Raised (e : exn)
| Running (data : dataset) (start : Z).

(** The trailing [for k,v in result.items()] loop. *)
Definition advance (start : Z) (page : dataset) : result Z :=
  for_each
    (fun start (kv : string * variant_record) =>
       s <- key_position (fst kv) ;;
       Ok (Z.max start s))
    page start.

Section Download.

(** The server, as [get] sees it: a state and the answer to a request. *)
Context {Srv : Type} (get : Srv -> request -> response * Srv).

Variables (seq_id : string) (stop : Z).

Definition next_request (start : Z) : request :=
  {| req_seq_id := seq_id;
     req_start := start;
     req_length := Z.max 1 (stop - start + 1) |}.

(** One pass through the loop body. *)
Definition download_body (srv : Srv) (data : dataset) (start : Z)
    : outcome * Srv :=
  let (resp, srv') := get srv (next_request start) in
  if negb (status_code resp / 100 =? 2) then
    (Raised (DownloadException "Unable to download data"
               (status_code resp) (content resp)), srv')
  else
    match json_results resp with
    | None => (Raised JSONError, srv')
    | Some page =>
        let data := dict_update data page in
        if status_code resp =? 200 then (Returned data, srv')
        else
          match advance start page with
          | Ok start' => (Running data start', srv')
          | Err e => (Raised e, srv')
          end
    end.

(** [while True], for at most [fuel] passes; the requests issued are
    logged in order.  [Running] is a loop that has not left yet. *)
Fixpoint download_loop (fuel : nat) (srv : Srv) (data : dataset)
    (start : Z) : outcome * list request * Srv :=
  match fuel with
  | O => (Running data start, [], srv)
  | S fuel' =>
      match download_body srv data start with
      | (Running data' start', srv') =>
          let '(o, log, srv'') := download_loop fuel' srv' data' start' in
          (o, next_request start :: log, srv'')
      | (o, srv') => (o, [next_request start], srv')
      end
  end.

End Download.

Definition download {Srv} (get : Srv -> request -> response * Srv)
    (fuel : nat) (srv : Srv) (seq_id : string) (start stop : Z)
    : outcome * list request * Srv :=
  download_loop get seq_id stop fuel srv [] start.

(** A server that plays a fixed sequence of responses, whatever is asked:
    its state is the index of the next response. *)
Definition sequence_server (responses : nat -> response)
    : nat -> request -> response * nat :=
  fun i _ => (responses i, S i).

(** A server whose answer depends on the request alone. *)
Definition stateless_server (answer : request -> response)
    : unit -> request -> response * unit :=
  fun _ req => (answer req, tt).

(** ** [cross_frequency] *)

(** The local function [_pop_freq]. *)
Definition _pop_freq (p : pydict Z) : result (option (pydict Q)) :=
  let total := sum (values p) in
  if total =? 0 then Ok None
  else
    r <- for_each
           (fun r (item : string * Z) =>
              f <- py_truediv (snd item) total ;;
              Ok (dict_set (fst item) f r))
           p [] ;;
    Ok (Some r).

(** The variables of [cross_frequency]; the two counters are what the
    function prints to [sys.stderr]. *)
Record cf_state : Type := {
  res_x : pydict (list Q);
  res_y : pydict (list Q);
  records_missing_pop_data : Z;
  total_records : Z
}.

Definition cf_init : cf_state :=
  {| res_x := []; res_y := []; records_missing_pop_data := 0;
     total_records := 0 |}.

(** [for a, fx in pfx.items(): if a in pfy: ...] *)
Definition cf_pairs (pfx pfy : pydict Q) (st : cf_state) : cf_state :=
  fold_left
    (fun st (item : string * Q) =>
       match dict_get (fst item) pfy with
       | Some fy =>
           {| res_x := dict_append (fst item) (snd item) (res_x st);
              res_y := dict_append (fst item) fy (res_y st);
              records_missing_pop_data := records_missing_pop_data st;
              total_records := total_records st |}
       | None => st
       end)
    pfx st.

(** [records_missing_pop_data += 1] and [total_records += 1] *)
Definition cf_skip (st : cf_state) : cf_state :=
  {| res_x := res_x st; res_y := res_y st;
     records_missing_pop_data := records_missing_pop_data st + 1;
     total_records := total_records st |}.

Definition cf_count (st : cf_state) : cf_state :=
  {| res_x := res_x st; res_y := res_y st;
     records_missing_pop_data := records_missing_pop_data st;
     total_records := total_records st + 1 |}.

(** The body of the inner loop, for one project block. *)
Definition cf_block (pop_id_x pop_id_y : string) (st : cf_state)
    (block : string * project_counts) : result cf_state :=
  px <- dict_lookup pop_id_x (allele_counts (snd block)) ;;
  py <- dict_lookup pop_id_y (allele_counts (snd block)) ;;
  pfx <- _pop_freq px ;;
  pfy <- _pop_freq py ;;
  match pfx, pfy with
  | Some fx, Some fy => Ok (cf_pairs fx fy st)
  | _, _ => Ok (cf_skip st)
  end.

(** The body of the outer loop, for one record of the dataset. *)
Definition cf_record (pop_id_x pop_id_y : string) (st : cf_state)
    (item : string * variant_record) : result cf_state :=
  for_each (cf_block pop_id_x pop_id_y) (counts (snd item)) (cf_count st).

Definition cross_frequency (data : dataset) (pop_id_x pop_id_y : string)
    : result cf_state :=
  for_each (cf_record pop_id_x pop_id_y) data cf_init.

(** ** [build_pop_map] *)

(** A node of the metadata tree: [pop["biosample_id"]], [pop["name"]] and
    [pop["subs"]] when the key is there. *)
Unset Elimination Schemes.
Inductive population : Type :=
| Population (biosample_id : string) (name : string)
    (subs : option (list population)).
Set Elimination Schemes.

Definition biosample_id (p : population) : string :=
  match p with Population i _ _ => i end.
Definition name (p : population) : string :=
  match p with Population _ n _ => n end.
Definition subs (p : population) : option (list population) :=
  match p with Population _ _ s => s end.

(** The local function [_read], first for one [pop] of the loop and then
    for the list [pops]. *)
Fixpoint read_pop (result : pydict string) (pop : population)
    : pydict string :=
  match pop with
  | Population i n s =>
      let result := dict_set i n result in
      match s with
      | Some children =>
          (fix read_all (pops : list population) (result : pydict string) :=
             match pops with
             | [] => result
             | p :: rest => read_all rest (read_pop result p)
             end) children result
      | None => result
      end
  end.

Definition _read (pops : list population) (result : pydict string)
    : pydict string :=
  fold_left read_pop pops result.

(** An element of the array the metadata endpoint returns. *)
Record metadata_entry : Type := {
  populations : list population
}.

Record metadata_response : Type := {
  meta_status_code : Z;
  meta_json : list metadata_entry
}.

Definition build_pop_map (meta_r : metadata_response)
    : result (pydict string) :=
  if negb (meta_status_code meta_r =? 200) then
    Err (MetadataException "Can't download metadata")
  else
    first <- list_index (meta_json meta_r) 0 ;;
    Ok (_read (populations first) []).

(** ** [translate] *)

(** [d[k]] on a [defaultdict(list)], read only: a missing key gives the
    empty list. *)
Definition dict_get_default {V} (k : string) (d : pydict (list V)) : list V :=
  match dict_get k d with
  | Some l => l
  | None => []
  end.

(** [for p, ma in mafs.items(): freq[p].append(ma)] *)
Definition append_mafs (mafs : pydict Q) (freq : pydict (list Q))
    : pydict (list Q) :=
  fold_left (fun freq pm => dict_append (fst pm) (snd pm) freq) mafs freq.

(** The body of the loop of [translate], on the pair [(position, freq)]. *)
Definition translate_record (st : list Z * pydict (list Q))
    (kv : string * variant_record) : result (list Z * pydict (list Q)) :=
  start <- key_position (fst kv) ;;
  let position := fst st ++ [start] in
  mafs <- maf (snd kv) ;;
  Ok (position, append_mafs mafs (snd st)).

Definition translate (data : dataset)
    : result (list Z * pydict (list Q)) :=
  for_each translate_record data ([], []).

(** ** [show1] and [show_cross_frequency] *)

(** The calls made to [matplotlib.pyplot], with the arguments that come
    from the data; the numbers handed to [scatter] are kept as
    rationals. *)
Inductive plt_call : Type :=
| plt_scatter (x y : list Q) (label : string)
| plt_xlabel (s : string)
| plt_ylabel (s : string)
| plt_title (s : string)
| plt_legend                              (* loc=2, bbox_to_anchor=(1.04,1) *)
| plt_yscale (s : string)
| plt_get_cmap (s : string)
| plt_rc_color_cycle (fractions : list Q) (* colormap(1.*i/num_colors), by i *)
| plt_show.

(** [plt.scatter(x, y, label=...)]: matplotlib refuses two sequences of
    different sizes with a [ValueError]. *)
Definition scatter (x y : list Q) (label : string) : result plt_call :=
  if (List.length x =? List.length y)%nat then Ok (plt_scatter x y label)
  else Err ValueError.

(** [enumerate(l)] *)
Definition enumerate {A} (l : list A) : list (nat * A) :=
  combine (seq 0 (List.length l)) l.

(** [d > 0] *)
Definition positive (d : Q) : bool := negb (Qle_bool d 0).

(** [[e for i, e in enumerate(items) if data[i] > 0]] *)
Definition where_positive {A} (items : list A) (data : list Q)
    : result (list A) :=
  for_each
    (fun kept (ie : nat * A) =>
       d <- list_index data (fst ie) ;;
       Ok (if positive d then kept ++ [snd ie] else kept))
    (enumerate items) [].

(** [show1], on the globals [x], [pop] and [meta] it reads: the calls it
    has made when it returns. *)
Definition show1 (x : list Z) (pop : pydict (list Q)) (meta : pydict string)
    : result (list plt_call) :=
  calls <- for_each
             (fun calls (pd : string * list Q) =>
                filtered_x <- where_positive x (snd pd) ;;
                filtered_data <- where_positive (snd pd) (snd pd) ;;
                label <- dict_lookup (fst pd) meta ;;
                call <- scatter (map inject_Z filtered_x) filtered_data
                          label ;;
                Ok (calls ++ [call]))
             pop [] ;;
  let num_colors := List.length meta in
  Ok (calls ++
      [plt_title "Minor Allele Frequency";
       plt_legend;
       plt_yscale "log";
       plt_get_cmap "gist_rainbow";
       plt_rc_color_cycle
         (map (fun i => inject_Z (Z.of_nat i) / inject_Z (Z.of_nat num_colors))%Q
            (seq 0 num_colors));
       plt_show]).

(** [str(n)] for an int, as an f-string writes it. *)
Definition py_str (n : Z) : string := NilZero.string_of_int (Z.to_int n).

(** [show_cross_frequency], on the global [meta] it reads; [None] is a
    download that has not left its loop within [fuel] passes. *)
Definition show_cross_frequency {Srv}
    (get : Srv -> request -> response * Srv) (fuel : nat) (srv : Srv)
    (meta : pydict string) (seq_id : string) (start stop : Z)
    (pop_x pop_y : string) : option (result (list plt_call)) :=
  match download get fuel srv seq_id start stop with
  | (Running _ _, _, _) => None
  | (Raised e, _, _) => Some (Err e)
  | (Returned data, _, _) =>
      Some
        (cf <- cross_frequency data pop_x pop_y ;;
         calls <- for_each
                    (fun calls (item : string * list Q) =>
                       let allele_freq_y :=
                         dict_get_default (fst item) (res_y cf) in
                       call <- scatter (snd item) allele_freq_y (fst item) ;;
                       xlabel <- dict_lookup pop_x meta ;;
                       ylabel <- dict_lookup pop_y meta ;;
                       Ok (calls ++
                           [call; plt_xlabel xlabel; plt_ylabel ylabel]))
                    (res_x cf) [] ;;
         Ok (calls ++
             [plt_title
                ("Cross Allele frequency " ++ seq_id ++ ", " ++
                 py_str start ++ ", " ++ py_str stop)%string;
              plt_show]))
  end.

(** ** Notions the properties are stated with *)

(** The largest element of a list, when it has one. *)
Definition list_max (l : list Z) : option Z :=
  match l with
  | [] => None
  | x :: rest => Some (fold_left Z.max rest x)
  end.

Fixpoint remove_one (x : Z) (l : list Z) : list Z :=
  match l with
  | [] => []
  | y :: rest => if x =? y then rest else y :: remove_one x rest
  end.

(** The second-largest count of a population: the largest count that is
    left once one occurrence of the largest has been taken away. *)
Definition second_largest (l : list Z) : option Z :=
  match list_max l with
  | Some m => list_max (remove_one m l)
  | None => None
  end.

(** The (population, allele counts) pairs of a record in the order [maf]
    meets them: project by project. *)
Definition reports (record : variant_record) : list (string * pydict Z) :=
  flat_map (fun item => allele_counts (snd item)) (counts record).

(** Every count of the record is non-negative (the data model's
    invariant). *)
Definition nonneg_counts (record : variant_record) : Prop :=
  Forall (fun pop => Forall (fun c => 0 <= c) (values (snd pop)))
    (reports record).

(** Every key of a page reads as ["<something>@<position>"]. *)
Definition key_ok (k : string) : bool :=
  match key_position k with
  | Ok _ => true
  | Err _ => false
  end.

Definition page_keys_ok (page : dataset) : bool :=
  forallb key_ok (keys page).

(** The positions of the keys of a page; [0] stands for a key that has
    none. *)
Definition position_or_zero (k : string) : Z :=
  match key_position k with
  | Ok p => p
  | Err _ => 0
  end.

Definition page_positions (page : dataset) : list Z :=
  map position_or_zero (keys page).

(** The value [maf] stores for one population; [maf_population] never
    raises (lemma [maf_population_ok]). *)
Definition maf_of (ac : pydict Z) : Q :=
  match maf_population ac with
  | Ok q => q
  | Err _ => 0%Q
  end.

(** The nodes of the metadata tree in the order [_read] visits them: a
    node, then the nodes below it, then its later siblings. *)
Fixpoint visit_order (pop : population) : list population :=
  match pop with
  | Population _ _ s =>
      pop ::
      match s with
      | Some children =>
          (fix visit_all (pops : list population) : list population :=
             match pops with
             | [] => []
             | p :: rest => visit_order p ++ visit_all rest
             end) children
      | None => []
      end
  end.

Definition visit_order_all (pops : list population) : list population :=
  flat_map visit_order pops.

(** [node_of n pops]: [n] is a node, at any depth, of the forest [pops]. *)
Inductive node_of (n : population) : list population -> Prop :=
| node_here : forall pops, In n pops -> node_of n pops
| node_below : forall p children pops,
    In p pops -> subs p = Some children -> node_of n children ->
    node_of n pops.

(** Sorted from the largest to the smallest. *)
Definition descending : list Z -> Prop :=
  StronglySorted (fun x y => y <= x).

(** A record with one project, in which one population has the allele
    counts [{A: 7, B: 3}]. *)
Definition record_7_3 : variant_record :=
  {| counts :=
       [("PRJNA507278",
         {| allele_counts := [("SAMN10492695", [("A", 7); ("B", 3)])] |})] |}.

(** A record in which the second project reports the population of the
    first again, with a single allele and then with counts that are all
    zero for another population. *)
Definition record_degenerate : variant_record :=
  {| counts :=
       [("PRJNA507278",
         {| allele_counts := [("SAMN10492695", [("A", 7); ("B", 3)])] |});
        ("PRJEB31735",
         {| allele_counts :=
              [("SAMN10492695", [("A", 12)]);
               ("SAMN10492696", [("A", 0); ("B", 0)])] |})] |}.

(** Responses and pages the properties are tried on. *)
Definition page_response (status : Z) (page : dataset) : response :=
  {| status_code := status; content := "{}"; json_results := Some page |}.

Definition not_found_response : response :=
  {| status_code := 404; content := "Not Found"; json_results := None |}.

Definition page_1 : dataset :=
  [("NC_000001.11@10", record_7_3); ("NC_000001.11@20", record_7_3)].
Definition page_2 : dataset :=
  [("NC_000001.11@20", record_degenerate); ("NC_000001.11@30", record_7_3)].
Definition page_3 : dataset :=
  [("NC_000001.11@30", record_degenerate); ("NC_000001.11@40", record_7_3)].

(** Two partial pages, then the complete one. *)
Definition three_pages (i : nat) : response :=
  nth i [page_response 206 page_1; page_response 206 page_2]
    (page_response 200 page_3).

(** A partial page, then a failure. *)
Definition page_then_failure (i : nat) : response :=
  nth i [page_response 206 page_1] not_found_response.

(** A page whose only record lies before the start of the interval asked
    for. *)
Definition page_behind : dataset := [("NC_000001.11@50", record_7_3)].

(** The project blocks of a dataset in the order [cross_frequency] meets
    them: record by record. *)
Definition blocks (data : dataset) : list (string * project_counts) :=
  flat_map (fun item => counts (snd item)) data.

(** Both populations are reported in the block. *)
Definition both_present (x y : string) (block : string * project_counts)
    : bool :=
  dict_mem x (allele_counts (snd block)) &&
  dict_mem y (allele_counts (snd block)).

(** Both populations are reported in the block and one of them has a
    total allele count of 0. *)
Definition no_total (x y : string) (block : string * project_counts)
    : bool :=
  match dict_get x (allele_counts (snd block)),
        dict_get y (allele_counts (snd block)) with
  | Some px, Some py => (sum (values px) =? 0) || (sum (values py) =? 0)
  | _, _ => false
  end.

(** The dataset without the blocks that [no_total] marks. *)
Definition without_no_total (x y : string) (data : dataset) : dataset :=
  map (fun item =>
         (fst item,
          {| counts := filter (fun b => negb (no_total x y b))
                         (counts (snd item)) |}))
    data.

(** The frequencies of the alleles of a population whose total is not 0:
    what the loop of [_pop_freq] builds. *)
Definition frequencies (p : pydict Z) : pydict Q :=
  fold_left
    (fun r (item : string * Z) =>
       dict_set (fst item)
         (Qred (inject_Z (snd item) / inject_Z (sum (values p)))) r)
    p [].

(** Two records of one block each: in the first, allele A has frequency
    2/5 = 0.4 in population x and 3/5 = 0.6 in population y; in the second,
    population y has no counts but zeros. *)
Definition record_both : variant_record :=
  {| counts :=
       [("PRJNA507278",
         {| allele_counts :=
              [("SAMN10492695", [("A", 2); ("B", 3)]);
               ("SAMN10492696", [("A", 3); ("B", 2)])] |})] |}.

Definition record_y_empty : variant_record :=
  {| counts :=
       [("PRJNA507278",
         {| allele_counts :=
              [("SAMN10492695", [("A", 1); ("B", 1)]);
               ("SAMN10492696", [("A", 0); ("B", 0)])] |})] |}.

Definition two_records : dataset :=
  [("NC_000001.11@10", record_both); ("NC_000001.11@20", record_y_empty)].

(** The same, the second record reporting population x only. *)
Definition record_without_y : variant_record :=
  {| counts :=
       [("PRJNA507278",
         {| allele_counts := [("SAMN10492695", [("A", 1); ("B", 1)])] |})] |}.

Definition two_records_one_without_y : dataset :=
  [("NC_000001.11@10", record_both); ("NC_000001.11@20", record_without_y)].

(** The value [maf] stores, with its key. *)
Definition maf_entry (pop : string * pydict Z) : string * Q :=
  (fst pop, maf_of (snd pop)).

(** What a block with both populations does to the state: it is skipped
    and counted, or it adds its pairs. *)
Definition block_pairs (x y : string) (block : string * project_counts)
    (st : cf_state) : cf_state :=
  match dict_get x (allele_counts (snd block)),
        dict_get y (allele_counts (snd block)) with
  | Some px, Some py => cf_pairs (frequencies px) (frequencies py) st
  | _, _ => st
  end.

Definition block_effect (x y : string) (block : string * project_counts)
    (st : cf_state) : cf_state :=
  if no_total x y block then cf_skip st else block_pairs x y block st.

(** Two states hold the same result sequences. *)
Definition same_results (st st' : cf_state) : Prop :=
  res_x st = res_x st' /\ res_y st = res_y st'.

(** The write [_read] makes for a node. *)
Definition pop_entry (pop : population) : string * string :=
  (biosample_id pop, name pop).

(** Induction on the metadata tree: a node holds the property when all its
    children do. *)
Fixpoint population_tree_ind (P : population -> Prop)
    (Hleaf : forall i n, P (Population i n None))
    (Hnode : forall i n children,
        Forall P children -> P (Population i n (Some children)))
    (pop : population) : P pop :=
  match pop with
  | Population i n None => Hleaf i n
  | Population i n (Some children) =>
      Hnode i n children
        ((fix all (l : list population) : Forall P l :=
            match l with
            | [] => Forall_nil P
            | c :: rest =>
                Forall_cons c (population_tree_ind P Hleaf Hnode c) (all rest)
            end) children)
  end.

(** A root population with two sub-populations, as the metadata endpoint
    returns it. *)
Definition three_populations : list population :=
  [Population "SAMN10492705" "Total"
     (Some [Population "SAMN10492695" "European" None;
            Population "SAMN10492703" "African" None])].

Definition three_populations_response : metadata_response :=
  {| meta_status_code := 200;
     meta_json := [ {| populations := three_populations |} ] |}.

(** A page whose key has no position. *)
Definition page_malformed : dataset := [("rs429358", record_7_3)].

(** The keys of a [defaultdict(list)] with the lengths of their lists. *)
Definition lengths {V} (d : pydict (list V)) : list (string * nat) :=
  map (fun kv => (fst kv, List.length (snd kv))) d.

(** A frequency between 0 and 1. *)
Definition in_unit (q : Q) : Prop := (0 <= q /\ q <= 1)%Q.

(** Every count of every block of the dataset is non-negative. *)
Definition nonneg_dataset (data : dataset) : Prop :=
  Forall (fun block =>
            Forall (fun pop => Forall (fun c => 0 <= c) (values (snd pop)))
              (allele_counts (snd block)))
    (blocks data).


(** The value [maf] holds for a population of a record, when it holds
    one. *)
Definition maf_of_record (p : string) (record : variant_record) : option Q :=
  match maf record with
  | Ok m => dict_get p m
  | Err _ => None
  end.

(** The values of a population over the records of a dataset, in order,
    the records that do not report it left out. *)
Definition maf_series (p : string) (data : dataset) : list Q :=
  flat_map
    (fun kv =>
       match maf_of_record p (snd kv) with
       | Some v => [v]
       | None => []
       end)
    data.

(** The record reports the population in some project block. *)
Definition reported (p : string) (record : variant_record) : Prop :=
  In p (keys (reports record)).

(** The items whose value, at the same index of [data], is positive. *)
Definition select {A} (items : list A) (data : list Q) : list A :=
  map fst (filter (fun ed => positive (snd ed)) (combine items data)).

(** The call [show1] makes for a population. *)
Definition show1_series (x : list Z) (meta : pydict string)
    (pd : string * list Q) : plt_call :=
  plt_scatter (map inject_Z (select x (snd pd)))
    (filter positive (snd pd))
    (match dict_get (fst pd) meta with Some label => label | None => "" end).

(** The calls that close [show1]. *)
Definition show1_closing (meta : pydict string) : list plt_call :=
  [plt_title "Minor Allele Frequency";
   plt_legend;
   plt_yscale "log";
   plt_get_cmap "gist_rainbow";
   plt_rc_color_cycle
     (map (fun i =>
             inject_Z (Z.of_nat i) / inject_Z (Z.of_nat (List.length meta)))%Q
        (seq 0 (List.length meta)));
   plt_show].

(** A dataset of two records: both report one population, and only the
    second reports another. *)
Definition record_two_populations : variant_record :=
  {| counts :=
       [("PRJNA507278",
         {| allele_counts :=
              [("SAMN10492695", [("A", 9); ("B", 1)]);
               ("SAMN10492696", [("A", 3); ("B", 2)])] |})] |}.

Definition uneven_dataset : dataset :=
  [("NC_000001.11@10", record_7_3);
   ("NC_000001.11@20", record_two_populations)].

Definition even_dataset : dataset :=
  [("NC_000001.11@10", record_both);
   ("NC_000001.11@20", record_two_populations)].

Definition two_names : pydict string :=
  [("SAMN10492695", "European"); ("SAMN10492696", "African Others")].

(** [show1] gets past the indexing and the name of the population: its
    list reaches the end of [x], and [meta] has its name. *)
Definition show1_can_plot (x : list Z) (meta : pydict string)
    (pd : string * list Q) : bool :=
  (List.length x <=? List.length (snd pd))%nat && dict_mem (fst pd) meta.

(** The points of a population: for each record that reports it with a
    positive value, the position of the record and the value. *)
Definition points (p : string) (data : dataset) : list (Q * Q) :=
  flat_map
    (fun kv =>
       match maf_of_record p (snd kv) with
       | Some v =>
           if positive v then [(inject_Z (position_or_zero (fst kv)), v)]
           else []
       | None => []
       end)
    data.

(** The exceptions the loop of [show1] can end with. *)
Definition show1_error (e : exn) : Prop :=
  e = IndexError \/ (exists k, e = KeyError k) \/ e = ValueError.

(** * Properties *)

(** ** Keys and integers *)

Example key_position_plain :
  key_position "NC_000001.11@1014143" = Ok 1014143.
Proof. reflexivity. Qed.

Example key_position_two_separators :
  key_position "NC_000001.11@10@20" = Err ValueError.
Proof. reflexivity. Qed.

Example key_position_no_separator :
  key_position "NC_000001.11" = Err ValueError.
Proof. reflexivity. Qed.

Example py_int_accepts :
  map py_int [" 42 "; "+7"; "-0"; "007"; "1_000"] =
  [Some 42; Some 7; Some 0; Some 7; Some 1000].
Proof. reflexivity. Qed.

Example py_int_rejects :
  map py_int [""; "+"; "- 1"; "1__0"; "_1"; "1_"; "1.0"; "0x10"; "1 2"] =
  [None; None; None; None; None; None; None; None; None].
Proof. reflexivity. Qed.

(** ** The error monad *)

Lemma for_each_app {A St} (body : St -> A -> result St) l1 l2 st :
  for_each body (l1 ++ l2) st =
  (st' <- for_each body l1 st ;; for_each body l2 st').
Proof.
  revert st; induction l1 as [|x l1 IH]; intro st; simpl.
  - reflexivity.
  - destruct (body st x) as [st'|e]; simpl; [apply IH | reflexivity].
Qed.

(** A loop whose body cannot raise is a fold. *)
Lemma for_each_pure {A St} (body : St -> A -> result St)
    (step : St -> A -> St) l :
  (forall st x, In x l -> body st x = Ok (step st x)) ->
  forall st, for_each body l st = Ok (fold_left step l st).
Proof.
  induction l as [|x l IH]; intros Hbody st; simpl.
  - reflexivity.
  - rewrite Hbody by (left; reflexivity). simpl.
    apply IH. intros st' y Hy. apply Hbody. right; exact Hy.
Qed.

(** ** Dictionaries *)

Section DictFacts.

Context {V : Type}.
Implicit Types (d writes before after : pydict V) (k : string) (v : V).

Lemma dict_get_set_eq k v d : dict_get k (dict_set k v d) = Some v.
Proof.
  induction d as [|[k' v'] d IH]; simpl.
  - rewrite String.eqb_refl. reflexivity.
  - destruct (String.eqb k k') eqn:E; simpl; rewrite E; auto.
Qed.

Lemma dict_get_set_neq k k' v d :
  k <> k' -> dict_get k' (dict_set k v d) = dict_get k' d.
Proof.
  intro Hne. induction d as [|[k0 v0] d IH]; simpl.
  - destruct (String.eqb_spec k' k); congruence.
  - destruct (String.eqb_spec k k0) as [->|Hk]; simpl.
    + destruct (String.eqb_spec k' k0); congruence.
    + destruct (String.eqb_spec k' k0); auto.
Qed.

Lemma dict_get_None k d : dict_get k d = None <-> ~ In k (keys d).
Proof.
  induction d as [|[k' v'] d IH]; simpl.
  - tauto.
  - destruct (String.eqb_spec k k') as [->|Hk].
    + split; [discriminate | intro H; exfalso; apply H; auto].
    + rewrite IH. split; [intros H [E|I]; congruence | tauto].
Qed.

Lemma dict_get_Some_In k v d : dict_get k d = Some v -> In (k, v) d.
Proof.
  induction d as [|[k' v'] d IH]; simpl; [discriminate|].
  destruct (String.eqb_spec k k') as [->|Hk].
  - intros [= ->]. auto.
  - auto.
Qed.

Lemma dict_get_app k d1 d2 :
  dict_get k (d1 ++ d2) =
  match dict_get k d1 with
  | Some v => Some v
  | None => dict_get k d2
  end.
Proof.
  induction d1 as [|[k' v'] d1 IH]; simpl; [reflexivity|].
  destruct (String.eqb k k'); auto.
Qed.

Lemma keys_dict_set k v d k' :
  In k' (keys (dict_set k v d)) <-> k' = k \/ In k' (keys d).
Proof.
  induction d as [|[k0 v0] d IH]; simpl.
  - intuition.
  - destruct (String.eqb_spec k k0) as [->|Hk]; simpl.
    + intuition.
    + rewrite IH. intuition.
Qed.

Lemma NoDup_dict_set k v d :
  NoDup (keys d) -> NoDup (keys (dict_set k v d)).
Proof.
  induction d as [|[k0 v0] d IH]; simpl; intro H.
  - constructor; [simpl; tauto | constructor].
  - destruct (String.eqb_spec k k0) as [->|Hk]; simpl; [exact H|].
    inversion H as [|? ? Hnotin Hnd]; subst.
    constructor; [|auto].
    fold (keys (dict_set k v d)). rewrite keys_dict_set.
    intros [E|I]; [congruence | exact (Hnotin I)].
Qed.

(** A sequence of writes leaves under each key what was written last
    for it, or what was there when nothing was. *)
Lemma dict_get_update k d writes :
  dict_get k (dict_update d writes) =
  match last_binding k writes with
  | Some v => Some v
  | None => dict_get k d
  end.
Proof.
  unfold dict_update, last_binding.
  revert d; induction writes as [|[k0 v0] ws IH]; intro d; simpl.
  - reflexivity.
  - rewrite IH, dict_get_app. simpl.
    destruct (dict_get k (rev ws)); [reflexivity|].
    destruct (String.eqb_spec k k0) as [->|Hk].
    + apply dict_get_set_eq.
    + apply dict_get_set_neq. congruence.
Qed.

Lemma keys_dict_update d writes k :
  In k (keys (dict_update d writes)) <-> In k (keys d) \/ In k (keys writes).
Proof.
  unfold dict_update.
  revert d; induction writes as [|[k0 v0] ws IH]; intro d; simpl.
  - tauto.
  - rewrite IH, keys_dict_set. intuition.
Qed.

Lemma NoDup_dict_update d writes :
  NoDup (keys d) -> NoDup (keys (dict_update d writes)).
Proof.
  unfold dict_update.
  revert d; induction writes as [|[k0 v0] ws IH]; intros d H; simpl.
  - exact H.
  - apply IH, NoDup_dict_set, H.
Qed.

Lemma dict_update_app d w1 w2 :
  dict_update d (w1 ++ w2) = dict_update (dict_update d w1) w2.
Proof. unfold dict_update. apply fold_left_app. Qed.

Lemma last_binding_In k v writes :
  last_binding k writes = Some v -> In (k, v) writes.
Proof.
  unfold last_binding. intro H.
  apply dict_get_Some_In in H. apply in_rev. exact H.
Qed.

Lemma last_binding_None k writes :
  last_binding k writes = None <-> ~ In k (keys writes).
Proof.
  unfold last_binding. rewrite dict_get_None.
  unfold keys. rewrite map_rev, <- in_rev. tauto.
Qed.

(** The last write for [k] is the one no later write follows. *)
Lemma last_binding_split k v before after :
  ~ In k (keys after) ->
  last_binding k (before ++ (k, v) :: after) = Some v.
Proof.
  intro H. unfold last_binding.
  rewrite rev_app_distr. simpl. rewrite <- app_assoc, dict_get_app.
  apply last_binding_None in H. unfold last_binding in H. rewrite H.
  simpl. rewrite String.eqb_refl. reflexivity.
Qed.

End DictFacts.

Lemma last_binding_map {V W} (f : V -> W) k (writes : list (string * V)) :
  last_binding k (map (fun kv => (fst kv, f (snd kv))) writes) =
  option_map f (last_binding k writes).
Proof.
  unfold last_binding. rewrite <- map_rev.
  induction (rev writes) as [|[k' v'] l IH]; simpl; [reflexivity|].
  destruct (String.eqb k k'); auto.
Qed.

(** ** Sorting, sums and the second-largest count *)

Lemma insert_desc_perm x l : Permutation (insert_desc x l) (x :: l).
Proof.
  induction l as [|y l IH]; simpl.
  - apply Permutation_refl.
  - destruct (y <? x).
    + apply Permutation_refl.
    + eapply perm_trans; [apply perm_skip, IH | apply perm_swap].
Qed.

Lemma sort_desc_perm l : Permutation (sort_desc l) l.
Proof.
  induction l as [|x l IH]; simpl.
  - constructor.
  - eapply perm_trans; [apply insert_desc_perm | apply perm_skip, IH].
Qed.

Lemma insert_desc_descending x l :
  descending l -> descending (insert_desc x l).
Proof.
  unfold descending. induction l as [|y l IH]; simpl; intro H.
  - repeat constructor.
  - apply StronglySorted_inv in H. destruct H as [Hl Hy].
    destruct (Z.ltb_spec y x) as [Hlt|Hge].
    + constructor.
      * constructor; assumption.
      * constructor; [lia|].
        eapply Forall_impl; [|exact Hy]. simpl. intros; lia.
    + constructor; [apply IH, Hl|].
      eapply Permutation_Forall.
      * apply Permutation_sym, insert_desc_perm.
      * constructor; [lia | exact Hy].
Qed.

Lemma sort_desc_descending l : descending (sort_desc l).
Proof.
  induction l as [|x l IH]; simpl.
  - constructor.
  - apply insert_desc_descending, IH.
Qed.

Lemma sort_desc_length l : List.length (sort_desc l) = List.length l.
Proof. apply Permutation_length, sort_desc_perm. Qed.

Lemma fold_add_shift l a : fold_left Z.add l a = a + fold_left Z.add l 0.
Proof.
  revert a; induction l as [|x l IH]; intro a; simpl.
  - lia.
  - rewrite IH, (IH x). lia.
Qed.

Lemma sum_cons x l : sum (x :: l) = x + sum l.
Proof. unfold sum. simpl. apply fold_add_shift. Qed.

Lemma sum_perm l l' : Permutation l l' -> sum l = sum l'.
Proof.
  induction 1 as [|x l l' _ IH|x y l|l l' l'' _ IH1 _ IH2].
  - reflexivity.
  - rewrite !sum_cons, IH. reflexivity.
  - rewrite !sum_cons. lia.
  - congruence.
Qed.

Lemma sum_nonneg l : Forall (fun c => 0 <= c) l -> 0 <= sum l.
Proof.
  induction 1 as [|x l Hx _ IH].
  - unfold sum; simpl; lia.
  - rewrite sum_cons. lia.
Qed.

Lemma fold_max_spec l x :
  let m := fold_left Z.max l x in
  (m = x \/ In m l) /\ x <= m /\ Forall (fun y => y <= m) l.
Proof.
  revert x; induction l as [|y l IH]; intro x; simpl.
  - split; [auto | split; [lia | constructor]].
  - destruct (IH (Z.max x y)) as (Hin & Hle & Hall).
    remember (fold_left Z.max l (Z.max x y)) as m eqn:Hm. clear Hm.
    split; [|split].
    + destruct Hin as [E|I]; [|auto].
      destruct (Z.max_spec x y) as [[_ E']|[_ E']];
        [right; left | left]; lia.
    + lia.
    + constructor; [lia | exact Hall].
Qed.

Lemma list_max_unique l m :
  In m l -> Forall (fun y => y <= m) l -> list_max l = Some m.
Proof.
  destruct l as [|x l]; [intros []|]. intros Hin Hall. simpl. f_equal.
  destruct (fold_max_spec l x) as (Hin' & Hle & Hall').
  set (m' := fold_left Z.max l x) in *.
  assert (In m' (x :: l)) as Hm' by (destruct Hin'; [left; congruence | right; auto]).
  rewrite Forall_forall in Hall.
  assert (Forall (fun y => y <= m') (x :: l)) as Hall'' by (constructor; auto).
  rewrite Forall_forall in Hall''.
  specialize (Hall _ Hm'). specialize (Hall'' _ Hin). lia.
Qed.

Lemma remove_one_perm x l : In x l -> Permutation l (x :: remove_one x l).
Proof.
  induction l as [|y l IH]; simpl; [intros []|].
  destruct (Z.eqb_spec x y) as [->|Hne]; intro H.
  - apply Permutation_refl.
  - destruct H as [E|I]; [congruence|].
    eapply perm_trans; [apply perm_skip, IH, I | apply perm_swap].
Qed.

(** The element at index 1 of the counts sorted in descending order is the
    second-largest count. *)
Lemma second_largest_sorted l a b rest :
  sort_desc l = a :: b :: rest -> second_largest l = Some b.
Proof.
  intro Hs.
  pose proof (sort_desc_perm l) as Hp. pose proof (sort_desc_descending l) as Hd.
  rewrite Hs in Hp, Hd. unfold descending in Hd.
  apply StronglySorted_inv in Hd. destruct Hd as [Hd Ha].
  apply StronglySorted_inv in Hd. destruct Hd as [_ Hb].
  assert (In a l) as Hina by (eapply Permutation_in; [exact Hp | left; reflexivity]).
  unfold second_largest.
  rewrite (list_max_unique l a); [|exact Hina|].
  - pose proof (remove_one_perm a l Hina) as Hr.
    assert (Permutation (b :: rest) (remove_one a l)) as Hp'.
    { apply (Permutation_cons_inv (a := a)).
      eapply perm_trans; [exact Hp | exact Hr]. }
    apply list_max_unique.
    + eapply Permutation_in; [exact Hp' | left; reflexivity].
    + eapply Permutation_Forall; [exact Hp'|].
      constructor; [lia | exact Hb].
  - eapply Permutation_Forall; [exact Hp|].
    constructor; [lia | exact Ha].
Qed.

(** ** [maf]: one population *)

Lemma two_or_more {A} (l : list A) :
  (List.length l <=? 1)%nat = false -> exists a b rest, l = a :: b :: rest.
Proof.
  destruct l as [|a [|b rest]]; simpl; try discriminate. eauto.
Qed.

Lemma maf_population_ok ac : maf_population ac = Ok (maf_of ac).
Proof.
  unfold maf_of. unfold maf_population.
  destruct (Nat.leb_spec (List.length (sort_desc (values ac))) 1) as [|Hlen];
    [reflexivity|].
  destruct (Z.gtb_spec (sum (sort_desc (values ac))) 0) as [Hpos|];
    [|reflexivity].
  destruct (sort_desc (values ac)) as [|a [|b rest]]; simpl in Hlen; try lia.
  simpl. unfold py_truediv.
  destruct (Z.eqb_spec (sum (a :: b :: rest)) 0); [lia | reflexivity].
Qed.

Lemma maf_of_few ac : (List.length ac <= 1)%nat -> maf_of ac = 0%Q.
Proof.
  intro H. unfold maf_of, maf_population.
  rewrite sort_desc_length. unfold values. rewrite length_map.
  destruct (Nat.leb_spec (List.length ac) 1); [reflexivity | lia].
Qed.

Lemma maf_of_no_total ac : sum (values ac) <= 0 -> maf_of ac = 0%Q.
Proof.
  intro H. unfold maf_of, maf_population.
  destruct (List.length (sort_desc (values ac)) <=? 1)%nat; [reflexivity|].
  rewrite (sum_perm _ _ (sort_desc_perm (values ac))).
  destruct (Z.gtb_spec (sum (values ac)) 0); [lia | reflexivity].
Qed.

Lemma maf_of_minor ac :
  (2 <= List.length ac)%nat -> 0 < sum (values ac) ->
  exists a b rest,
    sort_desc (values ac) = a :: b :: rest /\
    maf_of ac = Qred (inject_Z b / inject_Z (sum (values ac))).
Proof.
  intros Hlen Hpos. unfold maf_of, maf_population.
  rewrite (sum_perm _ _ (sort_desc_perm (values ac))).
  assert (List.length (sort_desc (values ac)) = List.length ac) as Hl
    by (rewrite sort_desc_length; unfold values; apply length_map).
  destruct (Nat.leb_spec (List.length (sort_desc (values ac))) 1); [lia|].
  destruct (Z.gtb_spec (sum (values ac)) 0); [|lia].
  destruct (sort_desc (values ac)) as [|a [|b rest]]; simpl in Hl; try lia.
  exists a, b, rest. split; [reflexivity|].
  simpl. unfold py_truediv.
  destruct (Z.eqb_spec (sum (values ac)) 0); [lia | reflexivity].
Qed.

Lemma quotient_bounds b t :
  0 <= b -> 2 * b <= t -> 0 < t ->
  (0 <= inject_Z b / inject_Z t /\ inject_Z b / inject_Z t <= 1 # 2)%Q.
Proof.
  intros Hb Hbt Ht. destruct t as [|t|t]; try lia.
  unfold Qdiv, Qmult, Qinv, Qle; simpl. lia.
Qed.

Lemma maf_of_bounds ac :
  Forall (fun c => 0 <= c) (values ac) ->
  (0 <= maf_of ac /\ maf_of ac <= 1 # 2)%Q.
Proof.
  intro Hnn.
  destruct (Nat.leb_spec (List.length ac) 1) as [Hfew|Hmany].
  { rewrite maf_of_few by exact Hfew. split; discriminate. }
  destruct (Z.leb_spec (sum (values ac)) 0) as [Hz|Hpos].
  { rewrite maf_of_no_total by exact Hz. split; discriminate. }
  destruct (maf_of_minor ac) as (a & b & rest & Hs & ->); [lia | lia |].
  rewrite Qred_correct.
  pose proof (sort_desc_perm (values ac)) as Hp.
  pose proof (sort_desc_descending (values ac)) as Hd.
  rewrite Hs in Hp, Hd.
  assert (Forall (fun c => 0 <= c) (a :: b :: rest)) as Hnn'
    by (eapply Permutation_Forall; [apply Permutation_sym, Hp | exact Hnn]).
  rewrite <- (sum_perm _ _ Hp), !sum_cons in *.
  apply StronglySorted_inv in Hd. destruct Hd as [_ Ha].
  inversion Ha as [|? ? Hba _]; subst.
  inversion Hnn' as [|? ? _ Hnn'']; subst.
  inversion Hnn'' as [|? ? Hb0 Hrest]; subst.
  pose proof (sum_nonneg rest Hrest).
  apply quotient_bounds; lia.
Qed.

(** ** [maf]: a whole record *)

Lemma maf_inner_loop l m :
  for_each
    (fun maf (pop : string * pydict Z) =>
       v <- maf_population (snd pop) ;;
       Ok (dict_set (fst pop) v maf)) l m =
  Ok (dict_update m (map maf_entry l)).
Proof.
  revert m; induction l as [|pop l IH]; intro m; simpl.
  - reflexivity.
  - rewrite maf_population_ok. simpl. rewrite IH. reflexivity.
Qed.

Lemma maf_unfold record :
  maf record = Ok (dict_update [] (map maf_entry (reports record))).
Proof.
  unfold maf, reports. generalize (@nil (string * Q)).
  induction (counts record) as [|item l IH]; intro m; simpl.
  - reflexivity.
  - rewrite maf_inner_loop. simpl.
    rewrite IH, map_app, dict_update_app. reflexivity.
Qed.

(** [maf] returns, and holds for each population the value of the block
    that reports it last. *)
Lemma maf_lookup record :
  exists m, maf record = Ok m /\
    forall p, dict_get p m = option_map maf_of (last_binding p (reports record)).
Proof.
  eexists. split; [apply maf_unfold|].
  intro p. rewrite dict_get_update. unfold maf_entry.
  rewrite last_binding_map.
  destruct (last_binding p (reports record)); reflexivity.
Qed.

(** C4. For every record and every population in it whose allele counts
    (in the block that reports the population last) have at least two
    alleles and a positive total, [maf] returns a mapping in which the
    population has the second-largest count divided by the total of its
    counts. *)
Theorem maf_second_largest_over_total record p ac :
  last_binding p (reports record) = Some ac ->
  (2 <= List.length ac)%nat ->
  0 < sum (values ac) ->
  exists m c2 v,
    maf record = Ok m /\
    second_largest (values ac) = Some c2 /\
    dict_get p m = Some v /\
    (v == inject_Z c2 / inject_Z (sum (values ac)))%Q.
Proof.
  intros Hlast Hlen Hpos.
  destruct (maf_lookup record) as (m & Hm & Hget).
  destruct (maf_of_minor ac Hlen Hpos) as (a & b & rest & Hs & Hv).
  exists m, b, (maf_of ac). repeat split.
  - exact Hm.
  - eapply second_largest_sorted, Hs.
  - rewrite Hget, Hlast. reflexivity.
  - rewrite Hv. apply Qred_correct.
Qed.

(** Counts [{A: 7, B: 3}] give 3/10. *)
Lemma maf_7_3 :
  exists m v,
    maf record_7_3 = Ok m /\
    dict_get "SAMN10492695" m = Some v /\
    (v == 3 # 10)%Q.
Proof.
  destruct (maf_second_largest_over_total record_7_3 "SAMN10492695"
              [("A", 7); ("B", 3)])
    as (m & c2 & v & Hm & Hc & Hv & Hq).
  - reflexivity.
  - simpl; lia.
  - reflexivity.
  - exists m, v. split; [exact Hm | split; [exact Hv|]].
    injection Hc as <-. rewrite Hq. reflexivity.
Defined.

(** C5. [maf] returns for every record (no exception, no division by
    zero), and a population whose allele counts (in the block that
    reports it last) have at most one allele, or add up to 0, has the
    value 0. *)
Theorem maf_total_and_zero_when_degenerate record :
  exists m,
    maf record = Ok m /\
    forall p ac,
      last_binding p (reports record) = Some ac ->
      (List.length ac <= 1)%nat \/ sum (values ac) = 0 ->
      dict_get p m = Some 0%Q.
Proof.
  destruct (maf_lookup record) as (m & Hm & Hget).
  exists m. split; [exact Hm|].
  intros p ac Hlast Hdeg. rewrite Hget, Hlast. simpl. f_equal.
  destruct Hdeg as [Hfew|Hzero].
  - apply maf_of_few, Hfew.
  - apply maf_of_no_total. lia.
Qed.

Lemma maf_degenerate_zero :
  exists m,
    maf record_degenerate = Ok m /\
    dict_get "SAMN10492695" m = Some 0%Q /\
    dict_get "SAMN10492696" m = Some 0%Q.
Proof.
  destruct (maf_total_and_zero_when_degenerate record_degenerate)
    as (m & Hm & Hzero).
  exists m. split; [exact Hm | split].
  - apply (Hzero "SAMN10492695" [("A", 12)]); [reflexivity | left; simpl; lia].
  - apply (Hzero "SAMN10492696" [("A", 0); ("B", 0)]);
      [reflexivity | right; reflexivity].
Defined.

(** C9. For every record whose counts are all non-negative, every value
    of the mapping [maf] returns lies between 0 and 1/2. *)
Theorem maf_at_most_half record :
  nonneg_counts record ->
  exists m,
    maf record = Ok m /\
    forall p v, dict_get p m = Some v -> (0 <= v /\ v <= 1 # 2)%Q.
Proof.
  intro Hnn.
  destruct (maf_lookup record) as (m & Hm & Hget).
  exists m. split; [exact Hm|].
  intros p v Hv. rewrite Hget in Hv.
  destruct (last_binding p (reports record)) as [ac|] eqn:Hlast;
    [|discriminate].
  injection Hv as <-.
  apply maf_of_bounds.
  apply last_binding_In in Hlast.
  unfold nonneg_counts in Hnn. rewrite Forall_forall in Hnn.
  exact (Hnn _ Hlast).
Qed.

Lemma maf_at_most_half_7_3 :
  exists m,
    maf record_7_3 = Ok m /\
    forall p v, dict_get p m = Some v -> (0 <= v /\ v <= 1 # 2)%Q.
Proof.
  apply maf_at_most_half.
  unfold nonneg_counts, reports; simpl.
  repeat (apply Forall_cons || apply Forall_nil); simpl; lia.
Defined.

(** ** [download]: one pass through the loop *)

Lemma key_ok_position k : key_ok k = true -> key_position k = Ok (position_or_zero k).
Proof.
  unfold key_ok, position_or_zero.
  destruct (key_position k); [reflexivity | discriminate].
Qed.

Lemma advance_ok page start :
  page_keys_ok page = true ->
  advance start page = Ok (fold_left Z.max (page_positions page) start).
Proof.
  unfold advance, page_keys_ok, page_positions, keys.
  revert start; induction page as [|[k v] page IH]; intros start H; simpl in *.
  - reflexivity.
  - apply andb_prop in H. destruct H as [Hk Hrest].
    rewrite (key_ok_position k Hk). simpl. apply IH, Hrest.
Qed.

Lemma fold_max_out l a b :
  fold_left Z.max l (Z.max a b) = Z.max a (fold_left Z.max l b).
Proof.
  revert b; induction l as [|x l IH]; intro b; simpl.
  - reflexivity.
  - rewrite <- Z.max_assoc. apply IH.
Qed.

Lemma fold_max_from l start top :
  list_max l = Some top -> fold_left Z.max l start = Z.max start top.
Proof.
  destruct l as [|x l]; simpl; [discriminate|].
  intros [= <-]. apply fold_max_out.
Qed.

Section DownloadFacts.

Context {Srv : Type} (get : Srv -> request -> response * Srv).
Variables (seq_id : string) (stop : Z).

Local Abbreviation request_at := (next_request seq_id stop).
Local Abbreviation body := (download_body get seq_id stop).
Local Abbreviation loop := (download_loop get seq_id stop).

Lemma download_body_fatal srv data start :
  status_code (fst (get srv (request_at start))) / 100 <> 2 ->
  body srv data start =
  (Raised (DownloadException "Unable to download data"
             (status_code (fst (get srv (request_at start))))
             (content (fst (get srv (request_at start))))),
   snd (get srv (request_at start))).
Proof.
  intro H. unfold download_body in *.
  destruct (get srv (next_request seq_id stop start)) as [resp srv']; simpl in *.
  destruct (Z.eqb_spec (status_code resp / 100) 2); [contradiction | reflexivity].
Qed.

Lemma download_body_complete srv data start page :
  status_code (fst (get srv (request_at start))) = 200 ->
  json_results (fst (get srv (request_at start))) = Some page ->
  body srv data start =
  (Returned (dict_update data page), snd (get srv (request_at start))).
Proof.
  intros Hst Hres. unfold download_body in *.
  destruct (get srv (next_request seq_id stop start)) as [resp srv']; simpl in *.
  rewrite Hst, Hres. reflexivity.
Qed.

Lemma download_body_partial srv data start page :
  status_code (fst (get srv (request_at start))) / 100 = 2 ->
  status_code (fst (get srv (request_at start))) <> 200 ->
  json_results (fst (get srv (request_at start))) = Some page ->
  page_keys_ok page = true ->
  body srv data start =
  (Running (dict_update data page)
     (fold_left Z.max (page_positions page) start),
   snd (get srv (request_at start))).
Proof.
  intros Hcls Hst Hres Hkeys. unfold download_body in *.
  destruct (get srv (next_request seq_id stop start)) as [resp srv']; simpl in *.
  rewrite Hcls, Hres. simpl.
  destruct (Z.eqb_spec (status_code resp) 200); [contradiction|].
  rewrite (advance_ok page start Hkeys). reflexivity.
Qed.

(** ** [download]: the loop *)

(** Passes that leave the loop running can be followed by more. *)
Lemma download_loop_resume n m srv data start data' start' log srv' :
  loop n srv data start = (Running data' start', log, srv') ->
  loop (n + m) srv data start =
  (let '(o, log', srv'') := loop m srv' data' start' in
   (o, log ++ log', srv'')).
Proof.
  revert srv data start log; induction n as [|n IH]; intros srv data start log H.
  - simpl in H. injection H as <- <- <- <-. simpl.
    destruct (download_loop get seq_id stop m srv data start) as [[o l] s].
    reflexivity.
  - simpl in H |- *.
    destruct (download_body get seq_id stop srv data start) as [[d|e|d s] srv1];
      try discriminate.
    destruct (download_loop get seq_id stop n srv1 d s) as [[o1 log1] srv2] eqn:E.
    injection H as -> <- <-.
    rewrite (IH _ _ _ _ E).
    destruct (download_loop get seq_id stop m srv2 data' start') as [[o l] s'].
    reflexivity.
Qed.

Lemma download_loop_step_raised fuel srv data start e srv' :
  body srv data start = (Raised e, srv') ->
  loop (S fuel) srv data start = (Raised e, [request_at start], srv').
Proof. intro H. simpl. rewrite H. reflexivity. Qed.

Lemma download_loop_step_returned fuel srv data start d srv' :
  body srv data start = (Returned d, srv') ->
  loop (S fuel) srv data start = (Returned d, [request_at start], srv').
Proof. intro H. simpl. rewrite H. reflexivity. Qed.

Lemma download_loop_step_running fuel srv data start d s srv' :
  body srv data start = (Running d s, srv') ->
  loop (S fuel) srv data start =
  (let '(o, log, srv'') := loop fuel srv' d s in
   (o, request_at start :: log, srv'')).
Proof. intro H. simpl. rewrite H. reflexivity. Qed.

(** C1, as the code has it.  Whatever came before, a response whose status
    is outside 200..299 ([status_code // 100 != 2]) ends the download at
    once: the exception carries the status code and the body, and the
    request that got this response is the last one issued, however many
    passes the loop could still make. *)
Theorem download_aborts_outside_2xx n extra srv data start data' start' log srv' :
  download_loop get seq_id stop n srv data start = (Running data' start', log, srv') ->
  status_code (fst (get srv' (next_request seq_id stop start'))) / 100 <> 2 ->
  download_loop get seq_id stop (n + S extra) srv data start =
  (Raised (DownloadException "Unable to download data"
             (status_code (fst (get srv' (next_request seq_id stop start'))))
             (content (fst (get srv' (next_request seq_id stop start'))))),
   log ++ [next_request seq_id stop start'],
   snd (get srv' (next_request seq_id stop start'))).
Proof.
  intros Hrun Hst.
  rewrite (download_loop_resume _ _ _ _ _ _ _ _ _ Hrun).
  rewrite (download_loop_step_raised _ _ _ _ _ _
             (download_body_fatal srv' data' start' Hst)).
  reflexivity.
Qed.

(** C3, as the code has it.  After a partial (206) response with a
    non-empty page whose keys all read as [<something>@<position>], the
    loop goes on with [start] set to the larger of the current [start] and
    the largest position among the keys of the page, and the next request
    is made from there. *)
Theorem download_advances_start fuel srv data start page :
  status_code (fst (get srv (next_request seq_id stop start))) = 206 ->
  json_results (fst (get srv (next_request seq_id stop start))) = Some page ->
  page <> [] ->
  page_keys_ok page = true ->
  exists top,
    list_max (page_positions page) = Some top /\
    download_body get seq_id stop srv data start =
      (Running (dict_update data page) (Z.max start top),
       snd (get srv (next_request seq_id stop start))) /\
    exists o log srv',
      download_loop get seq_id stop (S (S fuel)) srv data start =
      (o, next_request seq_id stop start :: next_request seq_id stop (Z.max start top) :: log, srv').
Proof.
  intros Hst Hres Hne Hkeys.
  destruct (list_max (page_positions page)) as [top|] eqn:Htop.
  2:{ destruct page; [contradiction | discriminate]. }
  exists top. split; [reflexivity|].
  assert (body srv data start =
          (Running (dict_update data page) (Z.max start top),
           snd (get srv (request_at start)))) as Hbody.
  { rewrite <- (fold_max_from _ start _ Htop).
    apply download_body_partial; auto; rewrite Hst; [reflexivity | discriminate]. }
  split; [exact Hbody|].
  rewrite (download_loop_step_running _ _ _ _ _ _ _ Hbody).
  simpl.
  destruct (download_body get seq_id stop (snd (get srv (request_at start)))
              (dict_update data page) (Z.max start top)) as [[d|e|d s] srv1].
  - eexists _, _, _. reflexivity.
  - eexists _, _, _. reflexivity.
  - destruct (download_loop get seq_id stop fuel srv1 d s) as [[o l] srv2].
    eexists _, _, _. reflexivity.
Qed.

(** C10.  A partial (206) response with an empty page leaves the data and
    [start] as they were, so the next request is the one just made; and
    when the server answers that request this way every time, the loop is
    still running after any number of passes, having made that one request
    each time. *)
Theorem download_repeats_on_empty_partial data start :
  (forall srv,
     status_code (fst (get srv (next_request seq_id stop start))) = 206 ->
     json_results (fst (get srv (next_request seq_id stop start))) = Some [] ->
     download_body get seq_id stop srv data start =
     (Running data start, snd (get srv (next_request seq_id stop start)))) /\
  ((forall srv,
      status_code (fst (get srv (next_request seq_id stop start))) = 206 /\
      json_results (fst (get srv (next_request seq_id stop start))) = Some []) ->
   forall fuel srv, exists srv',
     download_loop get seq_id stop fuel srv data start =
     (Running data start, repeat (next_request seq_id stop start) fuel, srv')).
Proof.
  assert (forall srv,
     status_code (fst (get srv (request_at start))) = 206 ->
     json_results (fst (get srv (request_at start))) = Some [] ->
     body srv data start =
     (Running data start, snd (get srv (request_at start)))) as Hone.
  { intros srv Hst Hres.
    apply (download_body_partial srv data start []); auto;
      rewrite Hst; [reflexivity | discriminate]. }
  split; [exact Hone|].
  intros Hsame fuel. induction fuel as [|fuel IH]; intro srv.
  - exists srv. reflexivity.
  - destruct (Hsame srv) as [Hst Hres].
    rewrite (download_loop_step_running _ _ _ _ _ _ _ (Hone srv Hst Hres)).
    destruct (IH (snd (get srv (request_at start)))) as [srv' ->].
    exists srv'. reflexivity.
Qed.

End DownloadFacts.

(** A response with status 201 is neither complete (200) nor partial
    (206), and [download] goes on: it asks again. *)
Lemma status_201_keeps_paginating :
  status_code (page_response 201 []) <> 200 /\
  status_code (page_response 201 []) <> 206 /\
  download (stateless_server (fun _ => page_response 201 [])) 2 tt
    "NC_000001.11" 100 200 =
  (Running [] 100,
   [ {| req_seq_id := "NC_000001.11"; req_start := 100; req_length := 101 |};
     {| req_seq_id := "NC_000001.11"; req_start := 100; req_length := 101 |} ],
   tt).
Proof.
  split; [discriminate | split; [discriminate | reflexivity]].
Qed.

Lemma download_aborts_on_404 :
  download (sequence_server page_then_failure) 5 0%nat "NC_000001.11" 5 100 =
  (Raised (DownloadException "Unable to download data" 404 "Not Found"),
   [ {| req_seq_id := "NC_000001.11"; req_start := 5; req_length := 96 |};
     {| req_seq_id := "NC_000001.11"; req_start := 20; req_length := 81 |} ],
   2%nat).
Proof.
  apply (download_aborts_outside_2xx (sequence_server page_then_failure)
           "NC_000001.11" 100 1 3 0%nat [] 5 page_1 20
           [ {| req_seq_id := "NC_000001.11"; req_start := 5;
                req_length := 96 |} ] 1%nat).
  - reflexivity.
  - vm_compute. discriminate.
Defined.

(** With [start] at 100, a partial page whose largest position is 50
    leaves [start] at 100. *)
Lemma start_stays_ahead_of_page :
  list_max (page_positions page_behind) = Some 50 /\
  download_body (stateless_server (fun _ => page_response 206 page_behind))
    "NC_000001.11" 200 tt [] 100 =
  (Running page_behind 100, tt) /\
  100 <> 50.
Proof.
  split; [reflexivity | split; [reflexivity | discriminate]].
Qed.

Lemma download_advances_start_to_20 :
  exists top,
    list_max (page_positions page_1) = Some top /\
    download_body (sequence_server three_pages) "NC_000001.11" 100 0%nat [] 5 =
      (Running (dict_update [] page_1) (Z.max 5 top), 1%nat) /\
    exists o log srv',
      download_loop (sequence_server three_pages) "NC_000001.11" 100 2 0%nat [] 5 =
      (o, next_request "NC_000001.11" 100 5
          :: next_request "NC_000001.11" 100 (Z.max 5 top) :: log, srv').
Proof.
  apply (download_advances_start (sequence_server three_pages)
           "NC_000001.11" 100 0 0%nat [] 5 page_1).
  - reflexivity.
  - reflexivity.
  - discriminate.
  - reflexivity.
Defined.

Lemma download_spins_on_empty_partial :
  download_body (stateless_server (fun _ => page_response 206 []))
    "NC_000001.11" 200 tt [] 100 =
  (Running [] 100, tt) /\
  exists srv',
    download_loop (stateless_server (fun _ => page_response 206 []))
      "NC_000001.11" 200 7 tt [] 100 =
    (Running [] 100,
     repeat (next_request "NC_000001.11" 200 100) 7, srv').
Proof.
  split.
  - apply (proj1 (download_repeats_on_empty_partial
                    (stateless_server (fun _ => page_response 206 []))
                    "NC_000001.11" 200 [] 100) tt); reflexivity.
  - apply (proj2 (download_repeats_on_empty_partial
                    (stateless_server (fun _ => page_response 206 []))
                    "NC_000001.11" 200 [] 100)).
    intro srv. split; reflexivity.
Defined.

(** ** [download]: a run of partial pages closed by a complete one *)

Lemma in_keys_concat {V} (pages : list (pydict V)) k :
  In k (keys (List.concat pages)) <->
  exists page, In page pages /\ In k (keys page).
Proof.
  unfold keys. rewrite concat_map, in_concat. split.
  - intros (l & Hl & Hk). apply in_map_iff in Hl.
    destruct Hl as (page & <- & Hpage). eauto.
  - intros (page & Hpage & Hk). exists (map fst page).
    split; [apply in_map, Hpage | exact Hk].
Qed.

Lemma download_pages_from responses seq_id stop pages last :
  forall first data start fuel,
    (forall i page,
       nth_error pages i = Some page ->
       status_code (responses (first + i)%nat) = 206 /\
       json_results (responses (first + i)%nat) = Some page /\
       page_keys_ok page = true) ->
    status_code (responses (first + List.length pages)%nat) = 200 ->
    json_results (responses (first + List.length pages)%nat) = Some last ->
    (List.length pages < fuel)%nat ->
    exists log,
      download_loop (sequence_server responses) seq_id stop fuel first
        data start =
      (Returned (dict_update data (List.concat (pages ++ [last]))), log,
       S (first + List.length pages)) /\
      List.length log = S (List.length pages).
Proof.
  induction pages as [|page pages IH];
    intros first data start fuel Hpart Hst Hres Hfuel;
    (destruct fuel as [|fuel]; [simpl in Hfuel; lia|]).
  - simpl in Hst, Hres. rewrite Nat.add_0_r in Hst, Hres.
    rewrite (download_loop_step_returned (sequence_server responses)
               seq_id stop fuel first data start (dict_update data last)
               (S first)).
    + simpl. rewrite app_nil_r, Nat.add_0_r. eauto.
    + apply (download_body_complete (sequence_server responses)); assumption.
  - destruct (Hpart 0%nat page eq_refl) as (Hst0 & Hres0 & Hkeys).
    rewrite Nat.add_0_r in Hst0, Hres0.
    rewrite (download_loop_step_running (sequence_server responses)
               seq_id stop fuel first data start (dict_update data page)
               (fold_left Z.max (page_positions page) start) (S first)).
    2:{ apply (download_body_partial (sequence_server responses));
          simpl; auto; rewrite Hst0; [reflexivity | discriminate]. }
    destruct (IH (S first) (dict_update data page)
                (fold_left Z.max (page_positions page) start) fuel)
      as (log & Hrun & Hlen).
    + intros i p Hi. specialize (Hpart (S i) p Hi).
      rewrite Nat.add_succ_r in Hpart. exact Hpart.
    + simpl in Hst. rewrite Nat.add_succ_r in Hst. exact Hst.
    + simpl in Hres. rewrite Nat.add_succ_r in Hres. exact Hres.
    + simpl in Hfuel. lia.
    + rewrite Hrun. eexists. split.
      * simpl. rewrite dict_update_app, Nat.add_succ_r. reflexivity.
      * simpl. rewrite Hlen. reflexivity.
Qed.

(** C2.  When the server's responses are partial (206) pages, one after
    the other, and then a complete (200) page, [download] returns after
    exactly one request per page; the dataset it returns has no key twice,
    has the keys of all the pages and no others, and holds for each key
    the record of the last page that has the key. *)
Theorem download_collects_all_pages responses pages last seq_id start stop fuel :
  (forall i page,
     nth_error pages i = Some page ->
     status_code (responses i) = 206 /\
     json_results (responses i) = Some page /\
     page_keys_ok page = true) ->
  status_code (responses (List.length pages)) = 200 ->
  json_results (responses (List.length pages)) = Some last ->
  (List.length pages < fuel)%nat ->
  exists data log,
    download (sequence_server responses) fuel 0%nat seq_id start stop =
      (Returned data, log, S (List.length pages)) /\
    List.length log = S (List.length pages) /\
    NoDup (keys data) /\
    (forall k,
       In k (keys data) <->
       exists page, In page (pages ++ [last]) /\ In k (keys page)) /\
    (forall k, dict_get k data = last_binding k (List.concat (pages ++ [last]))).
Proof.
  intros Hpart Hst Hres Hfuel.
  destruct (download_pages_from responses seq_id stop pages last
              0%nat [] start fuel Hpart Hst Hres Hfuel) as (log & Hrun & Hlen).
  exists (dict_update [] (List.concat (pages ++ [last]))), log.
  split; [exact Hrun | split; [exact Hlen | split; [|split]]].
  - apply NoDup_dict_update. constructor.
  - intro k. rewrite keys_dict_update, in_keys_concat. simpl. tauto.
  - intro k. rewrite dict_get_update.
    destruct (last_binding k (List.concat (pages ++ [last]))); reflexivity.
Qed.

Lemma download_three_pages :
  exists data log,
    download (sequence_server three_pages) 3 0%nat "NC_000001.11" 5 100 =
      (Returned data, log, 3%nat) /\
    List.length log = 3%nat /\
    NoDup (keys data) /\
    (forall k,
       In k (keys data) <->
       exists page, In page [page_1; page_2; page_3] /\ In k (keys page)) /\
    (forall k,
       dict_get k data = last_binding k (page_1 ++ page_2 ++ page_3 ++ [])).
Proof.
  apply (download_collects_all_pages three_pages [page_1; page_2] page_3
           "NC_000001.11" 5 100 3).
  - intros [|[|[|i]]] page H; simpl in H; try discriminate;
      injection H as <-; repeat split; reflexivity.
  - reflexivity.
  - reflexivity.
  - simpl. lia.
Defined.

(** ** [cross_frequency] *)

Lemma pop_freq_no_total p : sum (values p) = 0 -> _pop_freq p = Ok None.
Proof. intro H. unfold _pop_freq. rewrite H. reflexivity. Qed.

Lemma pop_freq_frequencies p :
  sum (values p) <> 0 -> _pop_freq p = Ok (Some (frequencies p)).
Proof.
  intro H. unfold _pop_freq, frequencies.
  destruct (Z.eqb_spec (sum (values p)) 0) as [|_]; [contradiction|].
  rewrite (for_each_pure _
             (fun r (item : string * Z) =>
                dict_set (fst item)
                  (Qred (inject_Z (snd item) / inject_Z (sum (values p)))) r)).
  - reflexivity.
  - intros r item _. unfold py_truediv.
    destruct (Z.eqb_spec (sum (values p)) 0); [contradiction | reflexivity].
Qed.

Lemma cf_block_present x y st block :
  both_present x y block = true ->
  cf_block x y st block = Ok (block_effect x y block st).
Proof.
  unfold both_present, dict_mem, cf_block, block_effect, block_pairs,
    no_total, dict_lookup.
  destruct (dict_get x (allele_counts (snd block))) as [px|]; [|discriminate].
  destruct (dict_get y (allele_counts (snd block))) as [py|]; [|discriminate].
  intros _. simpl.
  destruct (Z.eqb_spec (sum (values px)) 0) as [Hx|Hx];
    destruct (Z.eqb_spec (sum (values py)) 0) as [Hy|Hy]; simpl.
  - rewrite !pop_freq_no_total by assumption. reflexivity.
  - rewrite pop_freq_no_total, pop_freq_frequencies by assumption. reflexivity.
  - rewrite pop_freq_frequencies, pop_freq_no_total by assumption. reflexivity.
  - rewrite !pop_freq_frequencies by assumption. reflexivity.
Qed.

Lemma cf_block_absent x y st block :
  both_present x y block = false ->
  exists k, cf_block x y st block = Err (KeyError k) /\ (k = x \/ k = y).
Proof.
  unfold both_present, dict_mem, cf_block, dict_lookup.
  destruct (dict_get x (allele_counts (snd block))) as [px|]; simpl.
  - destruct (dict_get y (allele_counts (snd block))) as [py|]; simpl;
      [discriminate|]. eauto.
  - eauto.
Qed.

(** A loop whose body raises on the marked items only, raises when it
    meets one. *)
Lemma for_each_raises {A St} (body : St -> A -> result St)
    (bad : A -> bool) (P : exn -> Prop) :
  (forall st a, bad a = false -> exists st', body st a = Ok st') ->
  (forall st a, bad a = true -> exists e, body st a = Err e /\ P e) ->
  forall l st, existsb bad l = true ->
    exists e, for_each body l st = Err e /\ P e.
Proof.
  intros Hgood Hbad. induction l as [|a l IH]; intros st H; simpl in *.
  - discriminate.
  - destruct (bad a) eqn:Ea.
    + destruct (Hbad st a Ea) as (e & -> & He). simpl. eauto.
    + destruct (Hgood st a Ea) as (st' & ->). simpl. apply IH. exact H.
Qed.

Lemma for_each_returns {A St} (body : St -> A -> result St)
    (bad : A -> bool) :
  (forall st a, bad a = false -> exists st', body st a = Ok st') ->
  forall l st, existsb bad l = false ->
    exists st', for_each body l st = Ok st'.
Proof.
  intros Hgood. induction l as [|a l IH]; intros st H; simpl in *.
  - eauto.
  - apply orb_false_elim in H. destruct H as [Ea Hl].
    destruct (Hgood st a Ea) as (st' & ->). simpl. apply IH. exact Hl.
Qed.

Lemma existsb_flat_map {A B} (f : A -> list B) (bad : B -> bool) l :
  existsb bad (flat_map f l) = existsb (fun a => existsb bad (f a)) l.
Proof.
  induction l as [|a l IH]; simpl; [reflexivity|].
  rewrite existsb_app, IH. reflexivity.
Qed.

Lemma missing_population_raises data x y :
  existsb (fun block => negb (both_present x y block)) (blocks data) = true ->
  exists k, cross_frequency data x y = Err (KeyError k) /\ (k = x \/ k = y).
Proof.
  intro H. unfold blocks in H. rewrite existsb_flat_map in H.
  set (P := fun e => exists k, e = KeyError k /\ (k = x \/ k = y)).
  assert (forall st b, negb (both_present x y b) = false ->
                       exists st', cf_block x y st b = Ok st') as Hgood.
  { intros st b Hb. apply negb_false_iff in Hb.
    rewrite (cf_block_present x y st b Hb). eauto. }
  assert (forall st b, negb (both_present x y b) = true ->
                       exists e, cf_block x y st b = Err e /\ P e) as Hbad.
  { intros st b Hb. apply negb_true_iff in Hb.
    destruct (cf_block_absent x y st b Hb) as (k & -> & Hk).
    exists (KeyError k). split; [reflexivity | exists k; auto]. }
  destruct (for_each_raises (cf_record x y)
              (fun item => existsb (fun b => negb (both_present x y b))
                             (counts (snd item))) P)
    with (l := data) (st := cf_init) as (e & He & k & -> & Hk).
  - intros st item Hitem. unfold cf_record.
    exact (for_each_returns _ _ Hgood _ _ Hitem).
  - intros st item Hitem. unfold cf_record.
    exact (for_each_raises _ _ P Hgood Hbad _ _ Hitem).
  - exact H.
  - exists k. split; [exact He | exact Hk].
Qed.

(** C7.  When one of the two requested populations is absent from the
    allele counts of some project block of some record of the dataset,
    [cross_frequency] ends in a [KeyError] for one of the two
    identifiers; nothing in it catches the error. *)
Theorem cross_frequency_raises_on_missing_population
    data x y key record project block :
  In (key, record) data ->
  In (project, block) (counts record) ->
  dict_get x (allele_counts block) = None \/
  dict_get y (allele_counts block) = None ->
  exists k, cross_frequency data x y = Err (KeyError k) /\ (k = x \/ k = y).
Proof.
  intros Hrec Hblock Habsent.
  apply missing_population_raises.
  apply existsb_exists. exists (project, block). split.
  - unfold blocks. apply in_flat_map. exists (key, record). auto.
  - unfold both_present, dict_mem. simpl.
    destruct Habsent as [-> | ->]; [reflexivity|].
    destruct (dict_get x (allele_counts block)); reflexivity.
Qed.

Lemma cross_frequency_raises_without_y :
  exists k,
    cross_frequency two_records_one_without_y "SAMN10492695" "SAMN10492696" =
      Err (KeyError k) /\
    (k = "SAMN10492695" \/ k = "SAMN10492696").
Proof.
  apply (cross_frequency_raises_on_missing_population
           two_records_one_without_y "SAMN10492695" "SAMN10492696"
           "NC_000001.11@20" record_without_y "PRJNA507278"
           {| allele_counts := [("SAMN10492695", [("A", 1); ("B", 1)])] |}).
  - right; left; reflexivity.
  - left; reflexivity.
  - right; reflexivity.
Defined.

(** The pairs a block adds depend on the result sequences alone and leave
    the counters as they are. *)
Lemma cf_pairs_counters fx fy st :
  records_missing_pop_data (cf_pairs fx fy st) = records_missing_pop_data st /\
  total_records (cf_pairs fx fy st) = total_records st.
Proof.
  unfold cf_pairs. revert st; induction fx as [|[a q] fx IH]; intro st; simpl.
  - auto.
  - destruct (dict_get a fy); [|apply IH].
    destruct (IH {| res_x := dict_append a q (res_x st);
                    res_y := dict_append a q0 (res_y st);
                    records_missing_pop_data := records_missing_pop_data st;
                    total_records := total_records st |}) as [H1 H2].
    simpl in H1, H2. auto.
Qed.

Lemma cf_pairs_results fx fy st st' :
  same_results st st' -> same_results (cf_pairs fx fy st) (cf_pairs fx fy st').
Proof.
  unfold cf_pairs. revert st st'; induction fx as [|[a q] fx IH];
    intros st st' [Hx Hy]; simpl.
  - split; assumption.
  - destruct (dict_get a fy); apply IH; split; simpl; congruence.
Qed.

Lemma block_pairs_counters x y b st :
  records_missing_pop_data (block_pairs x y b st) = records_missing_pop_data st /\
  total_records (block_pairs x y b st) = total_records st.
Proof.
  unfold block_pairs.
  destruct (dict_get x (allele_counts (snd b))); [|auto].
  destruct (dict_get y (allele_counts (snd b))); [|auto].
  apply cf_pairs_counters.
Qed.

Lemma block_pairs_results x y b st st' :
  same_results st st' ->
  same_results (block_pairs x y b st) (block_pairs x y b st').
Proof.
  intro H. unfold block_pairs.
  destruct (dict_get x (allele_counts (snd b))); [|exact H].
  destruct (dict_get y (allele_counts (snd b))); [|exact H].
  apply cf_pairs_results, H.
Qed.

(** The loop over the blocks of a record, next to the same loop without
    the blocks that have no total. *)
Lemma cf_blocks_skip x y l :
  forall st st',
    forallb (both_present x y) l = true ->
    same_results st st' ->
    exists s s',
      for_each (cf_block x y) l st = Ok s /\
      for_each (cf_block x y) (filter (fun b => negb (no_total x y b)) l) st'
        = Ok s' /\
      same_results s s' /\
      records_missing_pop_data s =
        records_missing_pop_data st
        + Z.of_nat (List.length (filter (no_total x y) l)) /\
      records_missing_pop_data s' = records_missing_pop_data st' /\
      total_records s = total_records st /\
      total_records s' = total_records st'.
Proof.
  induction l as [|b l IH]; intros st st' Hall Hsame; simpl in *.
  - exists st, st'. repeat split; try apply Hsame; lia.
  - apply andb_prop in Hall. destruct Hall as [Hb Hl].
    rewrite (cf_block_present x y st b Hb). simpl.
    unfold block_effect. destruct (no_total x y b) eqn:Eb; simpl.
    + destruct (IH (cf_skip st) st' Hl Hsame)
        as (s & s' & H1 & H2 & H3 & H4 & H5 & H6 & H7).
      exists s, s'. simpl in H4, H6. repeat split; try assumption;
        try apply H3; lia.
    + rewrite (cf_block_present x y st' b Hb). simpl.
      unfold block_effect. rewrite Eb.
      destruct (IH _ _ Hl (block_pairs_results x y b st st' Hsame))
        as (s & s' & H1 & H2 & H3 & H4 & H5 & H6 & H7).
      destruct (block_pairs_counters x y b st) as [C1 C2].
      destruct (block_pairs_counters x y b st') as [C3 C4].
      exists s, s'. repeat split; try assumption; try apply H3; lia.
Qed.

Lemma cf_records_skip x y data :
  forall st st',
    forallb (both_present x y) (blocks data) = true ->
    same_results st st' ->
    exists s s',
      for_each (cf_record x y) data st = Ok s /\
      for_each (cf_record x y) (without_no_total x y data) st' = Ok s' /\
      same_results s s' /\
      records_missing_pop_data s =
        records_missing_pop_data st
        + Z.of_nat (List.length (filter (no_total x y) (blocks data))) /\
      records_missing_pop_data s' = records_missing_pop_data st' /\
      total_records s = total_records st + Z.of_nat (List.length data).
Proof.
  induction data as [|item data IH]; intros st st' Hall Hsame.
  - exists st, st'. simpl. repeat split; try apply Hsame; lia.
  - unfold blocks in Hall. simpl in Hall. rewrite forallb_app in Hall.
    apply andb_prop in Hall. destruct Hall as [Hitem Hdata].
    destruct (cf_blocks_skip x y (counts (snd item)) (cf_count st)
                (cf_count st') Hitem Hsame)
      as (s1 & s1' & H1 & H2 & H3 & H4 & H5 & H6 & H7).
    destruct (IH s1 s1' Hdata H3) as (s & s' & G1 & G2 & G3 & G4 & G5 & G6).
    exists s, s'.
    unfold blocks. simpl for_each. simpl flat_map.
    unfold cf_record at 1 3. simpl counts.
    rewrite H1, H2. simpl bind.
    rewrite filter_app, length_app.
    simpl in H4, H5, H6.
    unfold blocks in G4. cbn [List.length].
    repeat split; try assumption; try apply G3; lia.
Qed.

(** C6.  A project block in which one of the two requested populations
    has a total allele count of 0 adds no pair and adds one to the skip
    counter.  Over a whole dataset, the skip counter ends at the number of
    such blocks, and the result sequences are those of the dataset without
    these blocks. *)
Theorem cross_frequency_skips_blocks_without_total x y :
  (forall st block px py,
     dict_get x (allele_counts (snd block)) = Some px ->
     dict_get y (allele_counts (snd block)) = Some py ->
     sum (values px) = 0 \/ sum (values py) = 0 ->
     cf_block x y st block = Ok (cf_skip st)) /\
  (forall data,
     forallb (both_present x y) (blocks data) = true ->
     exists st st',
       cross_frequency data x y = Ok st /\
       cross_frequency (without_no_total x y data) x y = Ok st' /\
       res_x st = res_x st' /\
       res_y st = res_y st' /\
       records_missing_pop_data st =
         Z.of_nat (List.length (filter (no_total x y) (blocks data))) /\
       records_missing_pop_data st' = 0 /\
       total_records st = Z.of_nat (List.length data)).
Proof.
  split.
  - intros st block px py Hx Hy Hzero.
    rewrite cf_block_present.
    + unfold block_effect, no_total. rewrite Hx, Hy.
      destruct Hzero as [-> | ->]; simpl; [reflexivity|].
      rewrite orb_true_r. reflexivity.
    + unfold both_present, dict_mem. rewrite Hx, Hy. reflexivity.
  - intros data Hall.
    destruct (cf_records_skip x y data cf_init cf_init Hall)
      as (s & s' & H1 & H2 & [H3 H3'] & H4 & H5 & H6);
      [split; reflexivity|].
    exists s, s'. unfold cross_frequency. simpl in H4, H5, H6.
    repeat split; assumption.
Qed.

(** Of the two records, the second is skipped, and allele A is left with
    the single pair (2/5, 3/5), that is (0.4, 0.6). *)
Lemma cross_frequency_two_records :
  (forall st,
     for_each (cf_block "SAMN10492695" "SAMN10492696")
       (counts record_y_empty) st = Ok (cf_skip st)) /\
  exists st,
    cross_frequency two_records "SAMN10492695" "SAMN10492696" = Ok st /\
    records_missing_pop_data st = 1 /\
    total_records st = 2 /\
    dict_get "A" (res_x st) = Some [2 # 5]%Q /\
    dict_get "A" (res_y st) = Some [3 # 5]%Q.
Proof.
  split.
  - intro st. unfold record_y_empty. cbn [for_each counts].
    rewrite (proj1 (cross_frequency_skips_blocks_without_total
                      "SAMN10492695" "SAMN10492696") st _
               [("A", 1); ("B", 1)] [("A", 0); ("B", 0)]);
      [reflexivity | reflexivity | reflexivity | right; reflexivity].
  - destruct (proj2 (cross_frequency_skips_blocks_without_total
                       "SAMN10492695" "SAMN10492696") two_records eq_refl)
      as (st & st' & Hst & Hst' & Hx & Hy & Hskip & _ & Htotal).
    exists st. split; [exact Hst|].
    split; [exact Hskip|]. split; [exact Htotal|].
    rewrite Hx, Hy.
    vm_compute in Hst'. injection Hst' as <-.
    split; reflexivity.
Defined.

(** ** [build_pop_map] *)

Lemma read_pop_eq i n s result :
  read_pop result (Population i n s) =
  match s with
  | Some children => _read children (dict_set i n result)
  | None => dict_set i n result
  end.
Proof.
  destruct s as [children|]; simpl; [|reflexivity].
  unfold _read. generalize (dict_set i n result).
  induction children as [|c rest IH]; intro r; simpl; [reflexivity | apply IH].
Qed.

Lemma visit_order_eq i n s :
  visit_order (Population i n s) =
  Population i n s ::
  match s with
  | Some children => visit_order_all children
  | None => []
  end.
Proof.
  destruct s as [children|]; reflexivity.
Qed.

Lemma read_all_visit pops :
  Forall (fun pop => forall result,
            read_pop result pop =
            dict_update result (map pop_entry (visit_order pop))) pops ->
  forall result,
    _read pops result =
    dict_update result (map pop_entry (visit_order_all pops)).
Proof.
  unfold _read, visit_order_all.
  induction 1 as [|c rest Hc _ IH]; intro result; simpl.
  - reflexivity.
  - rewrite Hc, IH, map_app, dict_update_app. reflexivity.
Qed.

(** [_read] writes the entries of the nodes in the order of the visit. *)
Lemma read_pop_visit pop :
  forall result,
    read_pop result pop = dict_update result (map pop_entry (visit_order pop)).
Proof.
  induction pop as [i n|i n children IH] using population_tree_ind;
    intro result; rewrite read_pop_eq, visit_order_eq.
  - reflexivity.
  - simpl. apply read_all_visit, IH.
Qed.

Lemma read_visit pops result :
  _read pops result = dict_update result (map pop_entry (visit_order_all pops)).
Proof.
  apply read_all_visit. apply Forall_forall. intros pop _.
  apply read_pop_visit.
Qed.

Lemma visit_order_head pop : In pop (visit_order pop).
Proof. destruct pop as [i n s]. rewrite visit_order_eq. left; reflexivity. Qed.

Lemma node_of_visited n pops : node_of n pops -> In n (visit_order_all pops).
Proof.
  unfold visit_order_all.
  induction 1 as [pops Hin|p children pops Hp Hsubs _ IH].
  - apply in_flat_map. exists n. split; [exact Hin | apply visit_order_head].
  - apply in_flat_map. exists p. split; [exact Hp|].
    destruct p as [i nm s]. simpl in Hsubs. subst s.
    rewrite visit_order_eq. right. exact IH.
Qed.

Lemma visited_node_of_one pop :
  forall n, In n (visit_order pop) -> node_of n [pop].
Proof.
  induction pop as [i nm|i nm children IH] using population_tree_ind;
    intros n Hn; rewrite visit_order_eq in Hn.
  - destruct Hn as [<-|[]]. apply node_here. left; reflexivity.
  - destruct Hn as [<-|Hn]; [apply node_here; left; reflexivity|].
    apply (node_below n (Population i nm (Some children)) children);
      [left; reflexivity | reflexivity |].
    unfold visit_order_all in Hn. apply in_flat_map in Hn.
    destruct Hn as (c & Hc & Hnc).
    rewrite Forall_forall in IH. specialize (IH c Hc n Hnc).
    inversion IH as [? Hin|p ch ? Hp Hsubs Hbelow]; subst.
    + destruct Hin as [<-|[]]. apply node_here, Hc.
    + destruct Hp as [<-|[]].
      apply (node_below n c ch); assumption.
Qed.

Lemma visited_node_of n pops : In n (visit_order_all pops) -> node_of n pops.
Proof.
  unfold visit_order_all. intro H. apply in_flat_map in H.
  destruct H as (p & Hp & Hn).
  pose proof (visited_node_of_one p n Hn) as Hnode.
  inversion Hnode as [? Hin|q ch ? Hq Hsubs Hbelow]; subst.
  - destruct Hin as [<-|[]]. apply node_here, Hp.
  - destruct Hq as [<-|[]]. apply (node_below n p ch); assumption.
Qed.

Lemma keys_pop_entries l : keys (map pop_entry l) = map biosample_id l.
Proof. unfold keys. rewrite map_map. reflexivity. Qed.

(** C8.  When the metadata request succeeds, [build_pop_map] returns a
    map in which the biosample identifier of every node of the tree, at
    any depth, has an entry; the entry holds the display name of the node
    visited last among the nodes with this identifier, so it holds the
    node's own name when no other node shares its identifier. *)
Theorem build_pop_map_has_every_node meta_r first others :
  meta_status_code meta_r = 200 ->
  meta_json meta_r = first :: others ->
  exists m,
    build_pop_map meta_r = Ok m /\
    (forall n,
       node_of n (populations first) ->
       exists n',
         node_of n' (populations first) /\
         biosample_id n' = biosample_id n /\
         dict_get (biosample_id n) m = Some (name n')) /\
    (forall before n after,
       visit_order_all (populations first) = before ++ n :: after ->
       (forall n', In n' after -> biosample_id n' <> biosample_id n) ->
       dict_get (biosample_id n) m = Some (name n)) /\
    (NoDup (map biosample_id (visit_order_all (populations first))) ->
     forall n,
       node_of n (populations first) ->
       dict_get (biosample_id n) m = Some (name n)).
Proof.
  intros Hst Hjson.
  exists (_read (populations first) []).
  assert (forall before n after,
       visit_order_all (populations first) = before ++ n :: after ->
       (forall n', In n' after -> biosample_id n' <> biosample_id n) ->
       dict_get (biosample_id n) (_read (populations first) []) =
       Some (name n)) as Hlast.
  { intros before n after Hsplit Hlater.
    rewrite read_visit, dict_get_update, Hsplit, map_app. simpl.
    change (pop_entry n) with (biosample_id n, name n).
    rewrite last_binding_split; [reflexivity|].
    rewrite keys_pop_entries. intro Hin. apply in_map_iff in Hin.
    destruct Hin as (n' & Hid & Hn'). exact (Hlater n' Hn' Hid). }
  split; [|split; [|split]].
  - unfold build_pop_map. rewrite Hst, Hjson. reflexivity.
  - intros n Hn. apply node_of_visited in Hn.
    rewrite read_visit, dict_get_update.
    destruct (last_binding (biosample_id n)
                (map pop_entry (visit_order_all (populations first))))
      as [nm|] eqn:Hb.
    + apply last_binding_In, in_map_iff in Hb.
      destruct Hb as (n' & Hentry & Hn').
      injection Hentry as Hid Hname.
      exists n'. split; [apply visited_node_of, Hn' | split; [exact Hid|]].
      rewrite Hname. reflexivity.
    + apply last_binding_None in Hb. exfalso. apply Hb.
      rewrite keys_pop_entries. apply in_map, Hn.
  - exact Hlast.
  - intros Hnodup n Hn. apply node_of_visited in Hn.
    destruct (in_split _ _ Hn) as (before & after & Hsplit).
    apply (Hlast before n after Hsplit).
    intros n' Hn' Hid. rewrite Hsplit, map_app in Hnodup. simpl in Hnodup.
    apply NoDup_remove_2 in Hnodup. apply Hnodup.
    apply in_or_app. right. rewrite <- Hid. apply in_map, Hn'.
Qed.

Lemma build_pop_map_three_populations :
  exists m,
    build_pop_map three_populations_response = Ok m /\
    dict_get "SAMN10492705" m = Some "Total" /\
    dict_get "SAMN10492695" m = Some "European" /\
    dict_get "SAMN10492703" m = Some "African".
Proof.
  destruct (build_pop_map_has_every_node three_populations_response
              {| populations := three_populations |} [] eq_refl eq_refl)
    as (m & Hm & _ & _ & Hall).
  assert (NoDup (map biosample_id (visit_order_all three_populations))) as Hnd.
  { simpl. repeat constructor; simpl; intuition discriminate. }
  exists m. split; [exact Hm|]. simpl in Hall.
  split; [|split].
  - apply (Hall Hnd (Population "SAMN10492705" "Total"
                       (Some [Population "SAMN10492695" "European" None;
                              Population "SAMN10492703" "African" None]))).
    apply node_here. left; reflexivity.
  - apply (Hall Hnd (Population "SAMN10492695" "European" None)).
    eapply node_below; [left; reflexivity | reflexivity |].
    apply node_here. left; reflexivity.
  - apply (Hall Hnd (Population "SAMN10492703" "African" None)).
    eapply node_below; [left; reflexivity | reflexivity |].
    apply node_here. right; left; reflexivity.
Defined.

(** Two nodes with one identifier: the one visited later names it. *)
Example build_pop_map_collision :
  build_pop_map
    {| meta_status_code := 200;
       meta_json :=
         [ {| populations :=
                [Population "SAMN10492705" "Total"
                   (Some [Population "SAMN10492695" "European" None;
                          Population "SAMN10492705" "Global" None])] |} ] |} =
  Ok [("SAMN10492705", "Global"); ("SAMN10492695", "European")].
Proof. reflexivity. Qed.

Example build_pop_map_not_found :
  build_pop_map {| meta_status_code := 404; meta_json := [] |} =
  Err (MetadataException "Can't download metadata").
Proof. reflexivity. Qed.

(** * Further properties of the code *)

(** ** [maf]: which populations, and which order of alleles *)

(** X1.  The mapping [maf] returns has one entry for each population that
    some project block of the record reports, and for no other key. *)
Theorem maf_reports_every_population record :
  exists m,
    maf record = Ok m /\
    NoDup (keys m) /\
    forall p,
      In p (keys m) <->
      exists project block,
        In (project, block) (counts record) /\
        In p (keys (allele_counts block)).
Proof.
  exists (dict_update [] (map maf_entry (reports record))).
  split; [apply maf_unfold | split].
  - apply NoDup_dict_update. constructor.
  - intro p. rewrite keys_dict_update. unfold keys at 2 3.
    rewrite map_map. simpl. unfold reports. split.
    + intros [[]|Hin]. apply in_map_iff in Hin.
      destruct Hin as ([q ac] & <- & Hq). apply in_flat_map in Hq.
      destruct Hq as ([project block] & Hblock & Hac).
      exists project, block. split; [exact Hblock|].
      unfold keys. apply in_map_iff. exists (q, ac). auto.
    + intros (project & block & Hblock & Hp). right.
      unfold keys in Hp. apply in_map_iff in Hp.
      destruct Hp as ([q ac] & <- & Hac).
      apply in_map_iff. exists (q, ac). split; [reflexivity|].
      apply in_flat_map. exists (project, block). auto.
Qed.

Lemma descending_perm_eq l l' :
  descending l -> descending l' -> Permutation l l' -> l = l'.
Proof.
  unfold descending. revert l'; induction l as [|a l IH]; intros l' Hl Hl' Hp.
  - apply Permutation_nil in Hp. congruence.
  - destruct l' as [|b l'].
    { apply Permutation_sym, Permutation_nil in Hp. discriminate. }
    apply StronglySorted_inv in Hl. destruct Hl as [Hl Ha].
    apply StronglySorted_inv in Hl'. destruct Hl' as [Hl' Hb].
    assert (a = b) as ->.
    { assert (In a (b :: l')) as Hina
        by (eapply Permutation_in; [exact Hp | left; reflexivity]).
      assert (In b (a :: l)) as Hinb
        by (eapply Permutation_in;
            [apply Permutation_sym, Hp | left; reflexivity]).
      rewrite Forall_forall in Ha, Hb.
      destruct Hina as [E|Hina]; [congruence|].
      destruct Hinb as [E|Hinb]; [congruence|].
      specialize (Ha _ Hinb). specialize (Hb _ Hina). lia. }
    f_equal. apply IH; try assumption.
    apply (Permutation_cons_inv Hp).
Qed.

Lemma sort_desc_perm_eq l l' : Permutation l l' -> sort_desc l = sort_desc l'.
Proof.
  intro Hp. apply descending_perm_eq; try apply sort_desc_descending.
  eapply perm_trans; [apply sort_desc_perm|].
  eapply perm_trans; [exact Hp | apply Permutation_sym, sort_desc_perm].
Qed.

(** X2.  The value [maf] stores for a population depends on its counts
    only, not on the order in which the alleles are listed. *)
Theorem maf_population_order_independent ac ac' :
  Permutation (values ac) (values ac') ->
  maf_population ac = maf_population ac'.
Proof.
  intro Hp. unfold maf_population.
  rewrite (sort_desc_perm_eq _ _ Hp). reflexivity.
Qed.

Lemma maf_population_order_7_3 :
  maf_population [("A", 7); ("B", 3)] = maf_population [("B", 3); ("A", 7)].
Proof.
  apply maf_population_order_independent. simpl. apply perm_swap.
Defined.

(** X3.  For a population with two alleles and a positive total, [maf]
    stores the smaller of the two counts divided by their sum. *)
Theorem maf_population_two_alleles a b ca cb :
  0 < ca + cb ->
  maf_population [(a, ca); (b, cb)] =
  Ok (Qred (inject_Z (Z.min ca cb) / inject_Z (ca + cb))).
Proof.
  intro Hpos. unfold maf_population. simpl.
  destruct (Z.ltb_spec cb ca) as [Hlt|Hge]; simpl; unfold sum; simpl.
  - destruct (Z.gtb_spec (ca + cb) 0); [|lia].
    simpl. unfold py_truediv.
    destruct (Z.eqb_spec (ca + cb) 0); [lia|].
    rewrite Z.min_r by lia. reflexivity.
  - destruct (Z.gtb_spec (cb + ca) 0); [|lia].
    simpl. unfold py_truediv.
    destruct (Z.eqb_spec (cb + ca) 0); [lia|].
    rewrite Z.min_l by lia. rewrite (Z.add_comm cb ca). reflexivity.
Qed.

Lemma maf_population_two_alleles_7_3 :
  maf_population [("A", 7); ("B", 3)] = Ok (3 # 10)%Q.
Proof.
  apply (maf_population_two_alleles "A" "B" 7 3). lia.
Defined.

(** ** [download]: the requests, the keys, the data *)

Lemma advance_from start page start' :
  advance start page = Ok start' -> start <= start'.
Proof.
  unfold advance. revert start; induction page as [|[k v] page IH];
    intros start H; simpl in H.
  - injection H as <-. lia.
  - destruct (key_position k) as [s|e]; simpl in H; [|discriminate].
    apply IH in H. lia.
Qed.

Lemma key_position_error k e : key_position k = Err e -> e = ValueError.
Proof.
  unfold key_position.
  destruct (split_on "@" k) as [|l [|s [|x rest]]]; try congruence.
  destruct (py_int s); congruence.
Qed.

Lemma advance_malformed start page :
  page_keys_ok page = false -> advance start page = Err ValueError.
Proof.
  unfold advance, page_keys_ok, keys.
  revert start; induction page as [|[k v] page IH]; intros start H;
    simpl in *; [discriminate|].
  unfold key_ok in H.
  destruct (key_position k) as [s|e] eqn:Ek; simpl in *.
  - apply IH, H.
  - rewrite (key_position_error k e Ek). reflexivity.
Qed.

Section DownloadRuns.

Context {Srv : Type} (get : Srv -> request -> response * Srv).
Variables (seq_id : string) (stop : Z).

Lemma download_body_running srv data start data' start' srv' :
  download_body get seq_id stop srv data start = (Running data' start', srv') ->
  start <= start' /\
  exists page,
    json_results (fst (get srv (next_request seq_id stop start))) = Some page /\
    data' = dict_update data page.
Proof.
  unfold download_body.
  destruct (get srv (next_request seq_id stop start)) as [resp s]; simpl.
  destruct (negb (status_code resp / 100 =? 2)); [discriminate|].
  destruct (json_results resp) as [page|]; [|discriminate].
  destruct (status_code resp =? 200); [discriminate|].
  destruct (advance start page) as [s'|e] eqn:Ea; [|discriminate].
  intros [= <- <- <-]. split; [eapply advance_from, Ea | eauto].
Qed.

Lemma download_body_returned srv data start data' srv' :
  download_body get seq_id stop srv data start = (Returned data', srv') ->
  exists page,
    json_results (fst (get srv (next_request seq_id stop start))) = Some page /\
    data' = dict_update data page.
Proof.
  unfold download_body.
  destruct (get srv (next_request seq_id stop start)) as [resp s]; simpl.
  destruct (negb (status_code resp / 100 =? 2)); [discriminate|].
  destruct (json_results resp) as [page|]; [|discriminate].
  destruct (status_code resp =? 200).
  - intros [= <- <-]. eauto.
  - destruct (advance start page); discriminate.
Qed.

(** X4.  Whatever the server answers, the requests of one download ask
    for the same sequence, from start positions that never decrease and
    begin at the caller's [start]; each asks for at least one position and
    for the positions up to [stop] when its start is not beyond it. *)
Theorem download_requests_move_forward fuel srv data start o log srv' :
  download_loop get seq_id stop fuel srv data start = (o, log, srv') ->
  exists starts,
    log = map (next_request seq_id stop) starts /\
    StronglySorted Z.le starts /\
    Forall (fun s => start <= s) starts /\
    (fuel <> 0%nat -> hd_error starts = Some start) /\
    Forall (fun r =>
              req_seq_id r = seq_id /\
              1 <= req_length r /\
              req_start r + req_length r = Z.max (req_start r + 1) (stop + 1))
      log.
Proof.
  revert srv data start o log srv'.
  induction fuel as [|fuel IH]; intros srv data start o log srv' H; simpl in H.
  - injection H as <- <- <-. exists [].
    split; [reflexivity|].
    split; [constructor|].
    split; [constructor|].
    split; [intro Hf; contradiction | constructor].
  - destruct (download_body get seq_id stop srv data start)
      as [[d|e|d s] srv1] eqn:Hbody.
    + injection H as <- <- <-. exists [start].
      split; [reflexivity|].
      split; [repeat constructor|].
      split; [constructor; [lia | constructor]|].
      split; [reflexivity|].
      constructor; [simpl; split; [reflexivity | lia] | constructor].
    + injection H as <- <- <-. exists [start].
      split; [reflexivity|].
      split; [repeat constructor|].
      split; [constructor; [lia | constructor]|].
      split; [reflexivity|].
      constructor; [simpl; split; [reflexivity | lia] | constructor].
    + destruct (download_loop get seq_id stop fuel srv1 d s)
        as [[o1 log1] srv2] eqn:Hloop.
      injection H as <- <- <-.
      apply download_body_running in Hbody. destruct Hbody as [Hle _].
      destruct (IH _ _ _ _ _ _ Hloop) as (starts & -> & Hsorted & Hfrom & _ & Hreq).
      exists (start :: starts). simpl.
      assert (Forall (fun s' => start <= s') starts) as Hfrom'
        by (eapply Forall_impl; [|exact Hfrom]; simpl; intros; lia).
      split; [reflexivity|].
      split; [constructor; assumption|].
      split; [constructor; [lia | exact Hfrom']|].
      split; [reflexivity|].
      constructor; [simpl; split; [reflexivity | lia] | exact Hreq].
Qed.

(** X5.  The keys of a page are read only after a partial response: a
    key that is not [<something>@<position>] ends the download there with
    a [ValueError], while a complete (200) page is merged and returned
    whatever its keys are. *)
Theorem download_reads_keys_of_partial_pages_only fuel srv data start page :
  json_results (fst (get srv (next_request seq_id stop start))) = Some page ->
  page_keys_ok page = false ->
  (status_code (fst (get srv (next_request seq_id stop start))) / 100 = 2 ->
   status_code (fst (get srv (next_request seq_id stop start))) <> 200 ->
   download_loop get seq_id stop (S fuel) srv data start =
   (Raised ValueError, [next_request seq_id stop start],
    snd (get srv (next_request seq_id stop start)))) /\
  (status_code (fst (get srv (next_request seq_id stop start))) = 200 ->
   download_loop get seq_id stop (S fuel) srv data start =
   (Returned (dict_update data page), [next_request seq_id stop start],
    snd (get srv (next_request seq_id stop start)))).
Proof.
  intros Hres Hbad. split.
  - intros Hcls Hst. simpl. unfold download_body.
    destruct (get srv (next_request seq_id stop start)) as [resp s];
      simpl in *.
    rewrite Hcls, Hres. simpl.
    destruct (Z.eqb_spec (status_code resp) 200); [contradiction|].
    rewrite (advance_malformed start page Hbad). reflexivity.
  - intro Hst. simpl. unfold download_body.
    destruct (get srv (next_request seq_id stop start)) as [resp s];
      simpl in *.
    rewrite Hst, Hres. reflexivity.
Qed.

(** X6.  Whatever the server answers, the data [download] holds, when it
    returns or while it runs, has no key twice and has every key it held
    before. *)
Theorem download_keeps_every_key fuel srv data start o log srv' d :
  NoDup (keys data) ->
  download_loop get seq_id stop fuel srv data start = (o, log, srv') ->
  o = Returned d \/ (exists s, o = Running d s) ->
  NoDup (keys d) /\ forall k, In k (keys data) -> In k (keys d).
Proof.
  revert srv data start o log srv'.
  induction fuel as [|fuel IH]; intros srv data start o log srv' Hnd H Ho;
    simpl in H.
  - injection H as <- <- <-.
    destruct Ho as [Ho|[s Ho]]; [discriminate|].
    injection Ho as <- <-. auto.
  - destruct (download_body get seq_id stop srv data start)
      as [[d1|e|d1 s1] srv1] eqn:Hbody.
    + injection H as <- <- <-.
      destruct Ho as [Ho|[s Ho]]; [|discriminate]. injection Ho as <-.
      apply download_body_returned in Hbody.
      destruct Hbody as (page & _ & ->).
      split; [apply NoDup_dict_update, Hnd|].
      intros k Hk. apply keys_dict_update. auto.
    + injection H as <- <- <-.
      destruct Ho as [Ho|[s Ho]]; discriminate.
    + destruct (download_loop get seq_id stop fuel srv1 d1 s1)
        as [[o1 log1] srv2] eqn:Hloop.
      injection H as <- <- <-.
      apply download_body_running in Hbody.
      destruct Hbody as (_ & page & _ & ->).
      destruct (IH _ _ _ _ _ _ (NoDup_dict_update data page Hnd) Hloop Ho)
        as [Hnd' Hkeys].
      split; [exact Hnd'|].
      intros k Hk. apply Hkeys, keys_dict_update. auto.
Qed.

End DownloadRuns.

Lemma download_three_pages_requests :
  exists starts,
    [ {| req_seq_id := "NC_000001.11"; req_start := 5; req_length := 96 |};
      {| req_seq_id := "NC_000001.11"; req_start := 20; req_length := 81 |};
      {| req_seq_id := "NC_000001.11"; req_start := 30; req_length := 71 |} ] =
      map (next_request "NC_000001.11" 100) starts /\
    StronglySorted Z.le starts /\
    Forall (fun s => 5 <= s) starts /\
    (3%nat <> 0%nat -> hd_error starts = Some 5) /\
    Forall (fun r =>
              req_seq_id r = "NC_000001.11" /\
              1 <= req_length r /\
              req_start r + req_length r = Z.max (req_start r + 1) (100 + 1))
      [ {| req_seq_id := "NC_000001.11"; req_start := 5; req_length := 96 |};
        {| req_seq_id := "NC_000001.11"; req_start := 20; req_length := 81 |};
        {| req_seq_id := "NC_000001.11"; req_start := 30; req_length := 71 |} ].
Proof.
  apply (download_requests_move_forward (sequence_server three_pages)
           "NC_000001.11" 100 3 0%nat [] 5
           (Returned (dict_update [] (page_1 ++ page_2 ++ page_3))) _ 3%nat).
  reflexivity.
Defined.

Lemma download_malformed_key :
  download_loop (stateless_server (fun _ => page_response 206 page_malformed))
    "NC_000001.11" 100 4 tt [] 5 =
  (Raised ValueError, [next_request "NC_000001.11" 100 5], tt) /\
  download_loop (stateless_server (fun _ => page_response 200 page_malformed))
    "NC_000001.11" 100 4 tt [] 5 =
  (Returned page_malformed, [next_request "NC_000001.11" 100 5], tt).
Proof.
  split.
  - apply (proj1 (download_reads_keys_of_partial_pages_only
                    (stateless_server
                       (fun _ => page_response 206 page_malformed))
                    "NC_000001.11" 100 3 tt [] 5 page_malformed
                    eq_refl eq_refl)).
    + reflexivity.
    + discriminate.
  - apply (proj2 (download_reads_keys_of_partial_pages_only
                    (stateless_server
                       (fun _ => page_response 200 page_malformed))
                    "NC_000001.11" 100 3 tt [] 5 page_malformed
                    eq_refl eq_refl)).
    reflexivity.
Defined.

Lemma download_three_pages_keeps_keys :
  exists d log,
    download_loop (sequence_server three_pages) "NC_000001.11" 100 3 0%nat
      page_behind 5 = (Returned d, log, 3%nat) /\
    NoDup (keys d) /\
    forall k, In k (keys page_behind) -> In k (keys d).
Proof.
  eexists. eexists. split; [reflexivity|].
  eapply (download_keeps_every_key (sequence_server three_pages)
           "NC_000001.11" 100 3 0%nat page_behind 5
           (Returned (dict_update page_behind (page_1 ++ page_2 ++ page_3)))
           _ 3%nat).
  - repeat constructor. simpl. tauto.
  - reflexivity.
  - left. reflexivity.
Defined.

(** ** [cross_frequency]: when it returns, and what it returns *)

Lemma forallb_false_existsb {A} (f : A -> bool) l :
  forallb f l = false -> existsb (fun a => negb (f a)) l = true.
Proof.
  induction l as [|a l IH]; simpl; [discriminate|].
  destruct (f a); simpl; auto.
Qed.

Lemma filter_length_le {A} (f : A -> bool) l :
  (List.length (filter f l) <= List.length l)%nat.
Proof.
  induction l as [|a l IH]; simpl; [lia|]. destruct (f a); simpl; lia.
Qed.

(** X7.  [cross_frequency] returns exactly when every project block of
    every record reports both populations; it then has counted every
    record, and skipped no more blocks than there are. *)
Theorem cross_frequency_returns_iff data x y :
  (forallb (both_present x y) (blocks data) = true <->
   exists st, cross_frequency data x y = Ok st) /\
  (forall st,
     cross_frequency data x y = Ok st ->
     total_records st = Z.of_nat (List.length data) /\
     0 <= records_missing_pop_data st <= Z.of_nat (List.length (blocks data))).
Proof.
  assert (forallb (both_present x y) (blocks data) = true ->
          exists st, cross_frequency data x y = Ok st /\
            total_records st = Z.of_nat (List.length data) /\
            0 <= records_missing_pop_data st
              <= Z.of_nat (List.length (blocks data))) as Hok.
  { intro Hall.
    destruct (cf_records_skip x y data cf_init cf_init Hall)
      as (s & s' & H1 & _ & _ & H4 & _ & H6); [split; reflexivity|].
    exists s. simpl in H4, H6. split; [exact H1 | split; [exact H6|]].
    pose proof (filter_length_le (no_total x y) (blocks data)). lia. }
  assert ((exists st, cross_frequency data x y = Ok st) ->
          forallb (both_present x y) (blocks data) = true) as Hconv.
  { intros [st Hst].
    destruct (forallb (both_present x y) (blocks data)) eqn:E; [reflexivity|].
    apply forallb_false_existsb in E.
    destruct (missing_population_raises data x y E) as (k & Hk & _).
    congruence. }
  split.
  - split; [|exact Hconv].
    intro Hall. destruct (Hok Hall) as (st & Hst & _). eauto.
  - intros st Hst.
    destruct (Hok (Hconv (ex_intro _ st Hst))) as (st' & Hst' & Hrest).
    assert (st' = st) as <- by congruence. exact Hrest.
Qed.

Lemma cross_frequency_two_records_returns :
  exists st,
    cross_frequency two_records "SAMN10492695" "SAMN10492696" = Ok st /\
    total_records st = 2 /\
    0 <= records_missing_pop_data st <= 2.
Proof.
  destruct (proj1 (proj1 (cross_frequency_returns_iff two_records
                            "SAMN10492695" "SAMN10492696")) eq_refl)
    as [st Hst].
  exists st. split; [exact Hst|].
  exact (proj2 (cross_frequency_returns_iff two_records
                  "SAMN10492695" "SAMN10492696") st Hst).
Defined.

Lemma for_each_invariant {A St} (body : St -> A -> result St)
    (I : St -> Prop) l :
  (forall st a st', In a l -> body st a = Ok st' -> I st -> I st') ->
  forall st st', for_each body l st = Ok st' -> I st -> I st'.
Proof.
  induction l as [|a l IH]; intros Hstep st st' H Hst; simpl in H.
  - injection H as <-. exact Hst.
  - destruct (body st a) as [st1|e] eqn:Ha; simpl in H; [|discriminate].
    apply (IH (fun s b s' Hb => Hstep s b s' (or_intror Hb)) st1 st' H).
    apply (Hstep st a st1 (or_introl eq_refl) Ha Hst).
Qed.

Lemma fold_left_invariant {A St} (step : St -> A -> St) (I : St -> Prop) l :
  (forall st a, In a l -> I st -> I (step st a)) ->
  forall st, I st -> I (fold_left step l st).
Proof.
  induction l as [|a l IH]; intros Hstep st Hst; simpl.
  - exact Hst.
  - apply IH.
    + intros s b Hb. apply Hstep. right; exact Hb.
    + apply Hstep; [left; reflexivity | exact Hst].
Qed.

Lemma cf_block_returns x y st block st' :
  cf_block x y st block = Ok st' ->
  both_present x y block = true /\ st' = block_effect x y block st.
Proof.
  intro H. destruct (both_present x y block) eqn:E.
  - rewrite (cf_block_present x y st block E) in H.
    injection H as <-. auto.
  - destruct (cf_block_absent x y st block E) as (k & Hk & _). congruence.
Qed.

Lemma dict_append_cons {V} k (a : V) k' l d :
  dict_append k a ((k', l) :: d) =
  if String.eqb k k' then (k', l ++ [a]) :: d
  else (k', l) :: dict_append k a d.
Proof.
  unfold dict_append. cbn [dict_get].
  destruct (String.eqb k k') eqn:E.
  - cbn [dict_set]. rewrite E. reflexivity.
  - destruct (dict_get k d); cbn [dict_set]; rewrite E; reflexivity.
Qed.

Lemma lengths_dict_append {V W} k (a : V) (b : W) d d' :
  lengths d = lengths d' ->
  lengths (dict_append k a d) = lengths (dict_append k b d').
Proof.
  revert d'; induction d as [|[k1 l1] d IH]; intros [|[k2 l2] d'] H;
    try discriminate.
  - reflexivity.
  - rewrite !dict_append_cons. unfold lengths in H. simpl in H.
    injection H as <- Hlen Hrest.
    destruct (String.eqb k k1); unfold lengths; simpl.
    + rewrite !length_app, Hlen. simpl. f_equal. exact Hrest.
    + f_equal; [congruence|]. apply IH. exact Hrest.
Qed.



Lemma in_le_sum l c : Forall (fun c => 0 <= c) l -> In c l -> c <= sum l.
Proof.
  induction 1 as [|x l Hx Hl IH]; intros Hin; [destruct Hin|].
  rewrite sum_cons. pose proof (sum_nonneg l Hl).
  destruct Hin as [->|Hin]; [lia | specialize (IH Hin); lia].
Qed.

Lemma unit_quotient c t :
  0 <= c <= t -> 0 < t -> in_unit (Qred (inject_Z c / inject_Z t)).
Proof.
  intros Hc Ht. unfold in_unit. rewrite Qred_correct.
  destruct t as [|t|t]; try lia.
  unfold Qdiv, Qmult, Qinv, Qle; simpl. lia.
Qed.

Lemma Forall_values_dict_set {V} (P : V -> Prop) k v (d : pydict V) :
  P v -> Forall (fun kv => P (snd kv)) d ->
  Forall (fun kv => P (snd kv)) (dict_set k v d).
Proof.
  intros Hv. induction 1 as [|[k' v'] d Hk Hd IH]; simpl.
  - constructor; [exact Hv | constructor].
  - destruct (String.eqb k k'); constructor; auto.
Qed.

Lemma frequencies_in_unit p :
  Forall (fun c => 0 <= c) (values p) ->
  sum (values p) <> 0 ->
  Forall (fun kv => in_unit (snd kv)) (frequencies p).
Proof.
  intros Hnn Hsum. unfold frequencies.
  apply fold_left_invariant; [|constructor].
  intros r [a c] Hin Hr. simpl.
  apply Forall_values_dict_set; [|exact Hr].
  assert (In c (values p)) as Hc
    by (unfold values; apply in_map_iff; exists (a, c); auto).
  pose proof (in_le_sum _ _ Hnn Hc). pose proof (sum_nonneg _ Hnn).
  rewrite Forall_forall in Hnn. specialize (Hnn c Hc).
  apply unit_quotient; lia.
Qed.

Lemma dict_append_in_unit k q (d : pydict (list Q)) :
  in_unit q ->
  Forall (fun kv => Forall in_unit (snd kv)) d ->
  Forall (fun kv => Forall in_unit (snd kv)) (dict_append k q d).
Proof.
  intros Hq. induction 1 as [|[k' l] d Hl Hd IH].
  - unfold dict_append. simpl.
    constructor; [simpl; constructor; [exact Hq | constructor] | constructor].
  - rewrite dict_append_cons. destruct (String.eqb k k'); constructor; auto.
    simpl in *. apply Forall_app.
    split; [exact Hl | constructor; [exact Hq | constructor]].
Qed.

(** X9.  On a dataset whose counts are all non-negative, every frequency
    in the sequences [cross_frequency] returns lies between 0 and 1. *)
Theorem cross_frequency_in_unit_interval data x y st :
  nonneg_dataset data ->
  cross_frequency data x y = Ok st ->
  Forall (fun kv => Forall in_unit (snd kv)) (res_x st) /\
  Forall (fun kv => Forall in_unit (snd kv)) (res_y st).
Proof.
  unfold cross_frequency, nonneg_dataset. intros Hnn H.
  rewrite Forall_forall in Hnn.
  set (J := fun s : cf_state =>
              Forall (fun kv => Forall in_unit (snd kv)) (res_x s) /\
              Forall (fun kv => Forall in_unit (snd kv)) (res_y s)).
  apply (for_each_invariant (cf_record x y) J data) with (st := cf_init);
    [|exact H | split; constructor].
  intros s item s' Hitem Hrec Hs. unfold cf_record in Hrec.
  apply (for_each_invariant (cf_block x y) J (counts (snd item)))
    with (st := cf_count s); [|exact Hrec | exact Hs].
  intros s0 block s1 Hblock Hstep Hs0.
  assert (In block (blocks data)) as Hin
    by (unfold blocks; apply in_flat_map; exists item; auto).
  specialize (Hnn block Hin). rewrite Forall_forall in Hnn.
  apply cf_block_returns in Hstep. destruct Hstep as [_ ->].
  unfold block_effect, no_total, block_pairs.
  destruct (dict_get x (allele_counts (snd block))) as [px|] eqn:Ex;
    [|exact Hs0].
  destruct (dict_get y (allele_counts (snd block))) as [py|] eqn:Ey;
    [|exact Hs0].
  destruct (Z.eqb_spec (sum (values px)) 0) as [|Hx]; [exact Hs0|].
  destruct (Z.eqb_spec (sum (values py)) 0) as [|Hy]; [exact Hs0|].
  simpl.
  pose proof (frequencies_in_unit px
                (Hnn _ (dict_get_Some_In _ _ _ Ex)) Hx) as Hfx.
  pose proof (frequencies_in_unit py
                (Hnn _ (dict_get_Some_In _ _ _ Ey)) Hy) as Hfy.
  rewrite Forall_forall in Hfx, Hfy.
  unfold cf_pairs. apply fold_left_invariant; [|exact Hs0].
  intros s2 [a q] Ha [Hx2 Hy2]. simpl.
  destruct (dict_get a (frequencies py)) as [fy|] eqn:Efy; [|split; assumption].
  split; simpl; apply dict_append_in_unit; try assumption.
  - exact (Hfx _ Ha).
  - exact (Hfy _ (dict_get_Some_In _ _ _ Efy)).
Qed.

Lemma cross_frequency_two_records_in_unit :
  exists st,
    cross_frequency two_records "SAMN10492695" "SAMN10492696" = Ok st /\
    Forall (fun kv => Forall in_unit (snd kv)) (res_x st) /\
    Forall (fun kv => Forall in_unit (snd kv)) (res_y st).
Proof.
  eexists. split; [reflexivity|].
  apply (cross_frequency_in_unit_interval two_records
           "SAMN10492695" "SAMN10492696").
  - unfold nonneg_dataset, blocks; simpl.
    repeat (apply Forall_cons || apply Forall_nil); simpl; lia.
  - reflexivity.
Defined.

(** ** [_pop_freq]: the frequencies of one population *)






(** ** [build_pop_map]: nothing but the nodes *)

(** X11.  [build_pop_map] returns only for a response with status 200 and
    a non-empty array, and what it returns has no identifier twice and no
    entry but the identifier and name of a node of the first element's
    tree. *)
Theorem build_pop_map_entries_are_nodes meta_r m :
  build_pop_map meta_r = Ok m ->
  meta_status_code meta_r = 200 /\
  exists first others,
    meta_json meta_r = first :: others /\
    NoDup (keys m) /\
    forall i nm,
      dict_get i m = Some nm ->
      exists n,
        node_of n (populations first) /\
        biosample_id n = i /\ name n = nm.
Proof.
  unfold build_pop_map. intro H.
  destruct (Z.eqb_spec (meta_status_code meta_r) 200) as [Hst|];
    simpl in H; [|discriminate].
  split; [exact Hst|].
  destruct (meta_json meta_r) as [|first others]; simpl in H; [discriminate|].
  injection H as <-. exists first, others. split; [reflexivity|].
  rewrite read_visit. split.
  - apply NoDup_dict_update. constructor.
  - intros i nm Hget. rewrite dict_get_update in Hget.
    destruct (last_binding i
                (map pop_entry (visit_order_all (populations first))))
      as [nm'|] eqn:Hb; [|discriminate].
    injection Hget as ->.
    apply last_binding_In, in_map_iff in Hb.
    destruct Hb as (n & Hentry & Hn). injection Hentry as Hid Hname.
    exists n. split; [apply visited_node_of, Hn | auto].
Qed.

Lemma build_pop_map_three_populations_entries :
  meta_status_code three_populations_response = 200 /\
  exists first others,
    meta_json three_populations_response = first :: others /\
    NoDup (keys (_read three_populations [])) /\
    forall i nm,
      dict_get i (_read three_populations []) = Some nm ->
      exists n,
        node_of n (populations first) /\
        biosample_id n = i /\ name n = nm.
Proof.
  apply (build_pop_map_entries_are_nodes three_populations_response).
  reflexivity.
Defined.

(** ** [translate] *)

Lemma dict_append_set {V} k (a : V) d :
  dict_append k a d = dict_set k (dict_get_default k d ++ [a]) d.
Proof.
  unfold dict_append, dict_get_default. destruct (dict_get k d); reflexivity.
Qed.

Lemma dict_get_default_append {V} p k (a : V) d :
  dict_get_default p (dict_append k a d) =
  if String.eqb p k then dict_get_default k d ++ [a]
  else dict_get_default p d.
Proof.
  rewrite dict_append_set. unfold dict_get_default at 1.
  destruct (String.eqb_spec p k) as [->|Hne].
  - rewrite dict_get_set_eq. reflexivity.
  - rewrite dict_get_set_neq by congruence. reflexivity.
Qed.

Lemma keys_dict_append {V} k (a : V) d k' :
  In k' (keys (dict_append k a d)) <-> k' = k \/ In k' (keys d).
Proof. rewrite dict_append_set. apply keys_dict_set. Qed.

Lemma NoDup_dict_append {V} k (a : V) d :
  NoDup (keys d) -> NoDup (keys (dict_append k a d)).
Proof. rewrite dict_append_set. apply NoDup_dict_set. Qed.

Lemma append_mafs_default p mafs freq :
  NoDup (keys mafs) ->
  dict_get_default p (append_mafs mafs freq) =
  dict_get_default p freq ++
  match dict_get p mafs with
  | Some v => [v]
  | None => []
  end.
Proof.
  unfold append_mafs.
  revert freq; induction mafs as [|[k v] mafs IH]; intros freq Hnd; simpl.
  - rewrite app_nil_r. reflexivity.
  - inversion Hnd as [|? ? Hk Hnd']; subst.
    rewrite IH by exact Hnd'. rewrite dict_get_default_append.
    destruct (String.eqb_spec p k) as [->|Hne].
    + apply dict_get_None in Hk. rewrite Hk, app_nil_r. reflexivity.
    + reflexivity.
Qed.

Lemma append_mafs_NoDup mafs freq :
  NoDup (keys freq) -> NoDup (keys (append_mafs mafs freq)).
Proof.
  unfold append_mafs. intro H.
  apply (fold_left_invariant _ (fun d => NoDup (keys d)));
    [|exact H].
  intros st pm _ Hst. apply NoDup_dict_append, Hst.
Qed.

Lemma maf_NoDup record m : maf record = Ok m -> NoDup (keys m).
Proof.
  rewrite maf_unfold. intros [= <-]. apply NoDup_dict_update. constructor.
Qed.

Lemma page_keys_ok_cons k v (data : dataset) :
  page_keys_ok ((k, v) :: data) = key_ok k && page_keys_ok data.
Proof. reflexivity. Qed.

Lemma translate_record_eq st k v :
  translate_record st (k, v) =
  match key_position k with
  | Ok pos =>
      Ok (fst st ++ [pos],
          append_mafs (dict_update [] (map maf_entry (reports v))) (snd st))
  | Err e => Err e
  end.
Proof.
  unfold translate_record. simpl.
  destruct (key_position k); simpl; [|reflexivity].
  rewrite maf_unfold. reflexivity.
Qed.

(** The loop of [translate], from any state. *)
Lemma translate_loop data :
  forall position freq,
    (page_keys_ok data = true ->
     exists freq',
       for_each translate_record data (position, freq) =
         Ok (position ++ page_positions data, freq') /\
       (NoDup (keys freq) -> NoDup (keys freq')) /\
       forall p,
         dict_get_default p freq' =
         dict_get_default p freq ++ maf_series p data) /\
    (page_keys_ok data = false ->
     for_each translate_record data (position, freq) = Err ValueError).
Proof.
  induction data as [|[k v] data IH]; intros position freq.
  - split; [|discriminate]. intros _. exists freq. simpl.
    rewrite app_nil_r. split; [reflexivity | split; [auto|]].
    intro p. rewrite app_nil_r. reflexivity.
  - rewrite page_keys_ok_cons. cbn [for_each].
    rewrite translate_record_eq. cbn [fst snd].
    unfold key_ok. destruct (key_position k) as [pos|e] eqn:Ek.
    + cbn [bind andb].
      set (m := dict_update [] (map maf_entry (reports v))).
      assert (maf v = Ok m) as Em by apply maf_unfold.
      destruct (IH (position ++ [pos]) (append_mafs m freq)) as [IHok IHbad].
      split; [|exact IHbad].
      intro Hok. destruct (IHok Hok) as (freq' & Hrun & Hnd & Hget).
      exists freq'. split; [|split].
      * rewrite Hrun. unfold page_positions, keys. simpl.
        unfold position_or_zero at 2. rewrite Ek.
        rewrite <- app_assoc. reflexivity.
      * intro H. apply Hnd, append_mafs_NoDup, H.
      * intro p. rewrite Hget, append_mafs_default by (eapply maf_NoDup, Em).
        unfold maf_series. simpl. unfold maf_of_record at 2. rewrite Em.
        rewrite <- app_assoc. reflexivity.
    + split; [discriminate|]. intros _. cbn [bind].
      rewrite (key_position_error k e Ek). reflexivity.
Qed.

(** X12.  [translate] returns exactly when every key of the dataset reads
    as [<something>@<position>], and then its first list holds the
    positions of the keys, in order; any other key ends it with a
    [ValueError]. *)
Theorem translate_positions data :
  (page_keys_ok data = true ->
   exists freq, translate data = Ok (page_positions data, freq)) /\
  (page_keys_ok data = false -> translate data = Err ValueError).
Proof.
  unfold translate.
  destruct (translate_loop data [] []) as [Hok Hbad].
  split; [|exact Hbad].
  intro H. destruct (Hok H) as (freq & Hrun & _). exists freq. exact Hrun.
Qed.

Lemma translate_positions_examples :
  (exists freq, translate uneven_dataset = Ok ([10; 20], freq)) /\
  translate page_malformed = Err ValueError.
Proof.
  split.
  - apply (proj1 (translate_positions uneven_dataset)). reflexivity.
  - apply (proj2 (translate_positions page_malformed)). reflexivity.
Defined.

Lemma translate_returns data position freq :
  translate data = Ok (position, freq) ->
  position = page_positions data /\
  NoDup (keys freq) /\
  forall p, dict_get_default p freq = maf_series p data.
Proof.
  unfold translate. intro H.
  destruct (translate_loop data [] []) as [Hok Hbad].
  destruct (page_keys_ok data).
  - destruct (Hok eq_refl) as (freq' & Hrun & Hnd & Hget).
    pose proof (eq_trans (eq_sym Hrun) H) as E. injection E as <- <-.
    split; [reflexivity | split; [apply Hnd; constructor | exact Hget]].
  - pose proof (eq_trans (eq_sym (Hbad eq_refl)) H) as E. discriminate.
Qed.

(** X13.  In what [translate] returns, the list of a population holds the
    values [maf] gives it in the records that report it, in the order of
    the records; a record that does not report the population adds
    nothing to the list. *)
Theorem translate_frequencies data position freq :
  translate data = Ok (position, freq) ->
  forall p, dict_get_default p freq = maf_series p data.
Proof.
  intro H. apply (translate_returns data position freq H).
Qed.

Lemma translate_frequencies_uneven :
  exists position freq,
    translate uneven_dataset = Ok (position, freq) /\
    dict_get_default "SAMN10492695" freq = [3 # 10; 1 # 10]%Q /\
    dict_get_default "SAMN10492696" freq = [2 # 5]%Q.
Proof.
  eexists. eexists. split; [reflexivity|].
  split.
  - rewrite (translate_frequencies uneven_dataset _ _ eq_refl).
    reflexivity.
  - rewrite (translate_frequencies uneven_dataset _ _ eq_refl).
    reflexivity.
Defined.

Lemma maf_of_record_reported p record :
  (exists v, maf_of_record p record = Some v) <-> reported p record.
Proof.
  unfold maf_of_record, reported.
  destruct (maf_lookup record) as (m & -> & Hget). rewrite Hget.
  destruct (last_binding p (reports record)) as [ac|] eqn:Hb; simpl.
  - split; [|eauto]. intros _.
    apply last_binding_In in Hb. unfold keys. apply in_map_iff.
    exists (p, ac). auto.
  - split; [intros [v Hv]; discriminate|].
    intro Hin. apply last_binding_None in Hb. contradiction.
Qed.

Lemma maf_series_length p data :
  (List.length (maf_series p data) <= List.length data)%nat /\
  (List.length (maf_series p data) = List.length data <->
   forall kv, In kv data -> reported p (snd kv)).
Proof.
  unfold maf_series. induction data as [|kv data [IHle IHeq]]; simpl.
  - split; [lia|]. split; [intros _ kv [] | reflexivity].
  - rewrite length_app.
    pose proof (maf_of_record_reported p (snd kv)) as Hrep.
    destruct (maf_of_record p (snd kv)) as [v|]; simpl.
    + split; [lia|]. split.
      * intros Hlen kv' [<-|Hin]; [apply Hrep; eauto|].
        apply IHeq; [lia | exact Hin].
      * intro Hall. f_equal. apply IHeq. intros kv' Hin. apply Hall. auto.
    + split; [lia|]. split; [lia|].
      intro Hall. exfalso.
      destruct (proj2 Hrep (Hall kv (or_introl eq_refl))) as [v Hv].
      discriminate.
Qed.

Lemma maf_series_aligned p data :
  (forall kv, In kv data -> reported p (snd kv)) ->
  Forall2 (fun kv v => maf_of_record p (snd kv) = Some v)
    data (maf_series p data).
Proof.
  unfold maf_series. induction data as [|kv data IH]; intro Hall; simpl.
  - constructor.
  - destruct (proj2 (maf_of_record_reported p (snd kv))
                (Hall kv (or_introl eq_refl))) as [v Hv].
    rewrite Hv. cbn [app]. apply Forall2_cons; [exact Hv|].
    apply IH. intros kv' Hin. apply Hall. right. exact Hin.
Qed.

(** X14.  [translate] returns one position for each record.  The list of
    a population is never longer than the list of positions; it is as
    long exactly when every record reports the population, and then its
    i-th value is the value of the i-th record. *)
Theorem translate_alignment data position freq :
  translate data = Ok (position, freq) ->
  List.length position = List.length data /\
  forall p,
    (List.length (dict_get_default p freq) <= List.length position)%nat /\
    (List.length (dict_get_default p freq) = List.length position <->
     forall kv, In kv data -> reported p (snd kv)) /\
    ((forall kv, In kv data -> reported p (snd kv)) ->
     Forall2 (fun kv v => maf_of_record p (snd kv) = Some v)
       data (dict_get_default p freq)).
Proof.
  intro H. destruct (translate_returns data position freq H) as (-> & _ & Hget).
  assert (List.length (page_positions data) = List.length data) as Hlen
    by (unfold page_positions, keys; rewrite !length_map; reflexivity).
  split; [exact Hlen|].
  intro p. rewrite Hget, Hlen.
  destruct (maf_series_length p data) as [Hle Heq].
  split; [exact Hle | split; [exact Heq | apply maf_series_aligned]].
Qed.

Lemma translate_alignment_uneven :
  exists position freq,
    translate uneven_dataset = Ok (position, freq) /\
    List.length position = 2%nat /\
    List.length (dict_get_default "SAMN10492695" freq) = 2%nat /\
    List.length (dict_get_default "SAMN10492696" freq) = 1%nat.
Proof.
  eexists. eexists. split; [reflexivity|].
  destruct (translate_alignment uneven_dataset _ _ eq_refl) as [Hlen _].
  split; [exact Hlen | split; reflexivity].
Defined.

(** ** [show1] *)

Lemma skipn_nth {A} (l : list A) k d :
  nth_error l k = Some d -> skipn k l = d :: skipn (S k) l.
Proof.
  revert l; induction k as [|k IH]; intros [|a l] H; simpl in H;
    try discriminate.
  - injection H as ->. reflexivity.
  - apply IH in H. exact H.
Qed.

Lemma select_cons {A} (a : A) items d data :
  select (a :: items) (d :: data) =
  if positive d then a :: select items data else select items data.
Proof. unfold select. simpl. destruct (positive d); reflexivity. Qed.

Lemma where_positive_loop {A} (items : list A) data :
  forall k kept,
    for_each
      (fun kept (ie : nat * A) =>
         d <- list_index data (fst ie) ;;
         Ok (if positive d then kept ++ [snd ie] else kept))
      (combine (seq k (List.length items)) items) kept =
    if (List.length items <=? List.length (skipn k data))%nat
    then Ok (kept ++ select items (skipn k data))
    else Err IndexError.
Proof.
  induction items as [|a items IH]; intros k kept.
  - simpl. unfold select. simpl. rewrite app_nil_r. reflexivity.
  - cbn [List.length seq combine for_each fst snd].
    unfold list_index at 1.
    destruct (nth_error data k) as [d|] eqn:E.
    + rewrite (skipn_nth _ _ _ E). cbn [bind List.length Nat.leb].
      rewrite IH, select_cons.
      destruct (List.length items <=? List.length (skipn (S k) data))%nat;
        [|reflexivity].
      destruct (positive d); [rewrite <- app_assoc|]; reflexivity.
    + apply nth_error_None in E. rewrite (skipn_all2 data E). reflexivity.
Qed.

Lemma where_positive_eq {A} (items : list A) data :
  where_positive items data =
  if (List.length items <=? List.length data)%nat
  then Ok (select items data)
  else Err IndexError.
Proof.
  unfold where_positive, enumerate.
  rewrite (where_positive_loop items data 0 []). reflexivity.
Qed.

Lemma select_self l : select l l = filter positive l.
Proof.
  induction l as [|d l IH]; [reflexivity|].
  rewrite select_cons, IH. simpl. destruct (positive d); reflexivity.
Qed.

Lemma select_length {A} (items : list A) data :
  List.length data = List.length items ->
  List.length (select items data) = List.length (filter positive data).
Proof.
  revert data; induction items as [|a items IH]; intros [|d data] H;
    try discriminate; [reflexivity|].
  rewrite select_cons. simpl in *.
  destruct (positive d); simpl; [f_equal|]; apply IH; lia.
Qed.

Lemma show1_body_eq x meta calls (pd : string * list Q) :
  (filtered_x <- where_positive x (snd pd) ;;
   filtered_data <- where_positive (snd pd) (snd pd) ;;
   label <- dict_lookup (fst pd) meta ;;
   call <- scatter (map inject_Z filtered_x) filtered_data label ;;
   Ok (calls ++ [call])) =
  if (List.length x <=? List.length (snd pd))%nat then
    match dict_get (fst pd) meta with
    | Some _ =>
        if (List.length (select x (snd pd)) =?
            List.length (filter positive (snd pd)))%nat
        then Ok (calls ++ [show1_series x meta pd])
        else Err ValueError
    | None => Err (KeyError (fst pd))
    end
  else Err IndexError.
Proof.
  rewrite !where_positive_eq, Nat.leb_refl, select_self.
  destruct (List.length x <=? List.length (snd pd))%nat; [|reflexivity].
  cbn [bind]. unfold dict_lookup, show1_series, scatter.
  destruct (dict_get (fst pd) meta); [|reflexivity].
  cbn [bind]. rewrite length_map.
  destruct (List.length (select x (snd pd)) =?
            List.length (filter positive (snd pd)))%nat; reflexivity.
Qed.

Lemma show1_body_error x meta calls (pd : string * list Q) e :
  (filtered_x <- where_positive x (snd pd) ;;
   filtered_data <- where_positive (snd pd) (snd pd) ;;
   label <- dict_lookup (fst pd) meta ;;
   call <- scatter (map inject_Z filtered_x) filtered_data label ;;
   Ok (calls ++ [call])) = Err e ->
  show1_error e /\
  ((List.length (snd pd) <= List.length x)%nat ->
   e = IndexError \/ exists k, e = KeyError k).
Proof.
  rewrite show1_body_eq. unfold show1_error.
  destruct (Nat.leb_spec (List.length x) (List.length (snd pd))) as [Hle|Hlt].
  - destruct (dict_get (fst pd) meta).
    + destruct (Nat.eqb_spec (List.length (select x (snd pd)))
                  (List.length (filter positive (snd pd)))) as [|Hne];
        [discriminate|].
      intros [= <-]. split; [auto|]. intro Hge. exfalso. apply Hne.
      apply select_length. lia.
    + intros [= <-]. split; [right; left; eauto | intros _; right; eauto].
  - intros [= <-]. auto.
Qed.

Lemma show1_loop x meta pop :
  forall calls,
    (forall pd, In pd pop -> (List.length (snd pd) <= List.length x)%nat) ->
    (forallb (show1_can_plot x meta) pop = true ->
     for_each
       (fun calls (pd : string * list Q) =>
          filtered_x <- where_positive x (snd pd) ;;
          filtered_data <- where_positive (snd pd) (snd pd) ;;
          label <- dict_lookup (fst pd) meta ;;
          call <- scatter (map inject_Z filtered_x) filtered_data label ;;
          Ok (calls ++ [call]))
       pop calls = Ok (calls ++ map (show1_series x meta) pop)) /\
    (forallb (show1_can_plot x meta) pop = false ->
     exists e,
       for_each
         (fun calls (pd : string * list Q) =>
            filtered_x <- where_positive x (snd pd) ;;
            filtered_data <- where_positive (snd pd) (snd pd) ;;
            label <- dict_lookup (fst pd) meta ;;
            call <- scatter (map inject_Z filtered_x) filtered_data label ;;
            Ok (calls ++ [call]))
         pop calls = Err e /\
       (e = IndexError \/ exists k, e = KeyError k)).
Proof.
  induction pop as [|pd pop IH]; intros calls Hshort.
  - split; [|discriminate]. intros _. simpl. rewrite app_nil_r. reflexivity.
  - cbn [for_each forallb].
    assert (forall pd', In pd' pop ->
              (List.length (snd pd') <= List.length x)%nat) as Hshort'
      by (intros pd' Hin; apply Hshort; right; exact Hin).
    pose proof (Hshort pd (or_introl eq_refl)) as Hpd.
    rewrite show1_body_eq.
    unfold show1_can_plot at 1 3, dict_mem.
    destruct (Nat.leb_spec (List.length x) (List.length (snd pd)))
      as [Hle|Hlt]; cbn [andb].
    + destruct (dict_get (fst pd) meta) as [label|]; cbn [bind].
      * rewrite (select_length x (snd pd)) by lia. rewrite Nat.eqb_refl.
        cbn [bind].
        destruct (IH (calls ++ [show1_series x meta pd]) Hshort')
          as [IHok IHbad].
        split; [|exact IHbad].
        intro H. rewrite (IHok H). cbn [map].
        rewrite <- app_assoc. reflexivity.
      * split; [discriminate|]. intros _.
        exists (KeyError (fst pd)). split; [reflexivity | right; eauto].
    + split; [discriminate|]. intros _.
      exists IndexError. split; [reflexivity | left; reflexivity].
Qed.

Lemma show1_eq x pop meta :
  (forall pd, In pd pop -> (List.length (snd pd) <= List.length x)%nat) ->
  (forallb (show1_can_plot x meta) pop = true ->
   show1 x pop meta =
   Ok (map (show1_series x meta) pop ++ show1_closing meta)) /\
  (forallb (show1_can_plot x meta) pop = false ->
   exists e,
     show1 x pop meta = Err e /\
     (e = IndexError \/ exists k, e = KeyError k)).
Proof.
  intro Hshort. unfold show1.
  destruct (show1_loop x meta pop [] Hshort) as [Hok Hbad]. split.
  - intro H. rewrite (Hok H). reflexivity.
  - intro H. destruct (Hbad H) as (e & -> & He).
    exists e. split; [reflexivity | exact He].
Qed.

(** A loop raises when its body raises on one of the items, whatever the
    state. *)
Lemma for_each_fails {A St} (body : St -> A -> result St)
    (P : exn -> Prop) l a :
  In a l ->
  (forall st, exists e, body st a = Err e) ->
  (forall st b e, body st b = Err e -> P e) ->
  forall st, exists e, for_each body l st = Err e /\ P e.
Proof.
  intros Hin Hfail Hclass.
  induction l as [|b l IH]; intro st; [destruct Hin|].
  cbn [for_each]. destruct (body st b) as [st'|e] eqn:Hb.
  - cbn [bind]. destruct Hin as [->|Hin].
    + destruct (Hfail st) as [e He]. congruence.
    + apply IH, Hin.
  - exists e. split; [reflexivity | eapply Hclass, Hb].
Qed.

(** X15.  [show1] makes one [scatter] call for each population, in
    order, with the positions and the values at the indices where the
    value is positive, when the list of every population is as long as
    [x] and [meta] names every population; a list that is shorter than
    [x] ends it with an exception instead. *)
Theorem show1_plots_or_raises x pop meta :
  ((forall pd,
      In pd pop ->
      List.length (snd pd) = List.length x /\
      exists label, dict_get (fst pd) meta = Some label) ->
   show1 x pop meta =
   Ok (map (show1_series x meta) pop ++ show1_closing meta)) /\
  (forall pd,
     In pd pop ->
     (List.length (snd pd) < List.length x)%nat ->
     exists e,
       show1 x pop meta = Err e /\
       (e = IndexError \/ (exists k, e = KeyError k) \/ e = ValueError)).
Proof.
  split.
  - intro Hall.
    destruct (show1_eq x pop meta) as [Hok _].
    { intros pd Hpd. destruct (Hall pd Hpd) as [Hlen _]. lia. }
    apply Hok. apply forallb_forall. intros pd Hpd.
    destruct (Hall pd Hpd) as (Hlen & label & Hlabel).
    unfold show1_can_plot, dict_mem. rewrite Hlabel.
    apply andb_true_intro. split; [apply Nat.leb_le; lia | reflexivity].
  - intros pd Hpd Hshort. unfold show1.
    destruct (for_each_fails
                (fun calls (pd : string * list Q) =>
                   filtered_x <- where_positive x (snd pd) ;;
                   filtered_data <- where_positive (snd pd) (snd pd) ;;
                   label <- dict_lookup (fst pd) meta ;;
                   call <- scatter (map inject_Z filtered_x) filtered_data
                             label ;;
                   Ok (calls ++ [call]))
                show1_error pop pd Hpd) with (st := @nil plt_call)
      as (e & He & Hclass).
    + intro st. rewrite show1_body_eq.
      destruct (Nat.leb_spec (List.length x) (List.length (snd pd)))
        as [Hle|Hlt]; [lia | eauto].
    + intros st b e He. eapply show1_body_error, He.
    + rewrite He. exists e. split; [reflexivity | exact Hclass].
Qed.

Lemma show1_examples :
  show1 [10; 20]
    [("SAMN10492695", [2 # 5; 1 # 10]%Q); ("SAMN10492696", [0; 2 # 5]%Q)]
    two_names =
  Ok ([plt_scatter [10; 20]%Q [2 # 5; 1 # 10]%Q "European";
       plt_scatter [20]%Q [2 # 5]%Q "African Others"]
      ++ show1_closing two_names) /\
  exists e,
    show1 [10; 20]
      [("SAMN10492695", [3 # 10; 1 # 10]%Q); ("SAMN10492696", [2 # 5]%Q)]
      two_names = Err e /\
    (e = IndexError \/ (exists k, e = KeyError k) \/ e = ValueError).
Proof.
  split.
  - apply (proj1 (show1_plots_or_raises [10; 20]
                    [("SAMN10492695", [2 # 5; 1 # 10]%Q);
                     ("SAMN10492696", [0; 2 # 5]%Q)] two_names)).
    intros pd [<-|[<-|[]]]; simpl; split; try reflexivity; eauto.
  - apply (proj2 (show1_plots_or_raises [10; 20]
                    [("SAMN10492695", [3 # 10; 1 # 10]%Q);
                     ("SAMN10492696", [2 # 5]%Q)] two_names)
             ("SAMN10492696", [2 # 5]%Q)).
    + right; left; reflexivity.
    + simpl. lia.
Defined.

Lemma in_NoDup_get {V} k (v : V) d :
  NoDup (keys d) -> In (k, v) d -> dict_get k d = Some v.
Proof.
  induction d as [|[k' v'] d IH]; intros Hnd Hin; [destruct Hin|].
  simpl in *. inversion Hnd as [|? ? Hk Hnd']; subst.
  destruct Hin as [E|Hin].
  - injection E as -> ->. rewrite String.eqb_refl. reflexivity.
  - destruct (String.eqb_spec k k') as [->|_]; [|auto].
    exfalso. apply Hk. unfold keys. apply in_map_iff. exists (k', v). auto.
Qed.

Lemma points_of_series p data :
  (forall kv, In kv data -> reported p (snd kv)) ->
  List.length (select (page_positions data) (maf_series p data)) =
    List.length (filter positive (maf_series p data)) /\
  combine (map inject_Z (select (page_positions data) (maf_series p data)))
    (filter positive (maf_series p data)) = points p data.
Proof.
  unfold maf_series, points, page_positions, keys.
  induction data as [|kv data IH]; intro Hall.
  - split; reflexivity.
  - destruct IH as [IHlen IHeq];
      [intros kv' Hin; apply Hall; right; exact Hin|].
    destruct (proj2 (maf_of_record_reported p (snd kv))
                (Hall kv (or_introl eq_refl))) as [v Hv].
    cbn [map flat_map]. rewrite Hv. cbn [app].
    rewrite select_cons. cbn [filter].
    destruct (positive v); cbn [map List.length combine app].
    + split; [f_equal; exact IHlen | f_equal; exact IHeq].
    + split; [exact IHlen | exact IHeq].
Qed.

(** X16.  After [translate], [show1] never plots a value against the
    position of another record.  When some record does not report a
    population that another record reports, [show1] raises; and when it
    returns, each [scatter] call is for a population that every record
    reports, and its points are the (position, value) pairs of the
    records whose value is positive. *)
Theorem show1_after_translate data x pop meta :
  translate data = Ok (x, pop) ->
  ((exists p kv kv',
      In kv data /\ In kv' data /\
      reported p (snd kv) /\ ~ reported p (snd kv')) ->
   exists e,
     show1 x pop meta = Err e /\
     (e = IndexError \/ exists k, e = KeyError k)) /\
  (forall calls,
     show1 x pop meta = Ok calls ->
     forall xs ys label,
       In (plt_scatter xs ys label) calls ->
       exists p,
         dict_get p meta = Some label /\
         (forall kv, In kv data -> reported p (snd kv)) /\
         List.length xs = List.length ys /\
         combine xs ys = points p data).
Proof.
  intro H. destruct (translate_returns data x pop H) as (-> & Hnd & Hget).
  assert (List.length (page_positions data) = List.length data) as Hlen
    by (unfold page_positions, keys; rewrite !length_map; reflexivity).
  assert (forall pd, In pd pop ->
            (List.length (snd pd) <= List.length (page_positions data))%nat)
    as Hshort.
  { intros [p l] Hpd. simpl. rewrite Hlen.
    assert (l = maf_series p data) as ->.
    { rewrite <- Hget. unfold dict_get_default.
      rewrite (in_NoDup_get p l pop Hnd Hpd). reflexivity. }
    apply maf_series_length. }
  destruct (show1_eq (page_positions data) pop meta Hshort) as [Hok Hbad].
  split.
  - intros (p & kv & kv' & Hkv & Hkv' & Hrep & Hnot).
    apply Hbad.
    destruct (forallb (show1_can_plot (page_positions data) meta) pop)
      eqn:E; [|reflexivity].
    exfalso. rewrite forallb_forall in E.
    destruct (maf_series_length p data) as [Hle Heq].
    assert (maf_series p data <> []) as Hne.
    { unfold maf_series. intro Hnil.
      destruct (proj2 (maf_of_record_reported p (snd kv)) Hrep) as [v Hv].
      assert (In v (flat_map
                      (fun kv0 => match maf_of_record p (snd kv0) with
                                  | Some v0 => [v0]
                                  | None => []
                                  end) data)) as Hin.
      { apply in_flat_map. exists kv. rewrite Hv. split; [exact Hkv|].
        left; reflexivity. }
      rewrite Hnil in Hin. destruct Hin. }
    rewrite <- Hget in Hne. unfold dict_get_default in Hne.
    destruct (dict_get p pop) as [l|] eqn:Hl; [|congruence].
    assert (l = maf_series p data) as Hl'
      by (rewrite <- Hget; unfold dict_get_default; rewrite Hl; reflexivity).
    specialize (E (p, l) (dict_get_Some_In _ _ _ Hl)).
    unfold show1_can_plot in E. apply andb_prop in E. destruct E as [E _].
    apply Nat.leb_le in E. simpl in E. rewrite Hl', Hlen in E.
    assert (List.length (maf_series p data) = List.length data) as Hall
      by lia.
    exact (Hnot (proj1 Heq Hall kv' Hkv')).
  - intros calls Hcalls xs ys label Hin.
    destruct (forallb (show1_can_plot (page_positions data) meta) pop)
      eqn:E.
    2:{ destruct (Hbad eq_refl) as (e & He & _). congruence. }
    rewrite (Hok eq_refl) in Hcalls. injection Hcalls as <-.
    apply in_app_or in Hin. destruct Hin as [Hin|Hin].
    2:{ simpl in Hin.
        repeat (destruct Hin as [Hin|Hin]; [discriminate|]). destruct Hin. }
    apply in_map_iff in Hin. destruct Hin as ([p l] & Hseries & Hpd).
    rewrite forallb_forall in E. specialize (E (p, l) Hpd).
    unfold show1_can_plot, dict_mem in E. simpl in E.
    apply andb_prop in E. destruct E as [Elen Emeta].
    apply Nat.leb_le in Elen.
    unfold show1_series in Hseries. simpl in Hseries.
    destruct (dict_get p meta) as [label'|] eqn:Hlabel; [|discriminate].
    injection Hseries as <- <- <-.
    assert (l = maf_series p data) as ->.
    { rewrite <- Hget. unfold dict_get_default.
      rewrite (in_NoDup_get p l pop Hnd Hpd). reflexivity. }
    destruct (maf_series_length p data) as [Hle Heq].
    assert (forall kv, In kv data -> reported p (snd kv)) as Hall
      by (apply (proj1 Heq); lia).
    destruct (points_of_series p data Hall) as [Hplen Hpoints].
    exists p. split; [exact Hlabel | split; [exact Hall | split]].
    + rewrite length_map. exact Hplen.
    + exact Hpoints.
Qed.

Lemma show1_after_translate_examples :
  (exists e,
     show1 [10; 20]
       [("SAMN10492695", [3 # 10; 1 # 10]%Q); ("SAMN10492696", [2 # 5]%Q)]
       two_names = Err e /\
     (e = IndexError \/ exists k, e = KeyError k)) /\
  (forall xs ys label,
     In (plt_scatter xs ys label)
       ([plt_scatter [10; 20]%Q [2 # 5; 1 # 10]%Q "European";
         plt_scatter [10; 20]%Q [2 # 5; 2 # 5]%Q "African Others"]
        ++ show1_closing two_names) ->
     exists p,
       dict_get p two_names = Some label /\
       (forall kv, In kv even_dataset -> reported p (snd kv)) /\
       List.length xs = List.length ys /\
       combine xs ys = points p even_dataset).
Proof.
  split.
  - apply (proj1 (show1_after_translate uneven_dataset [10; 20]
                    [("SAMN10492695", [3 # 10; 1 # 10]%Q);
                     ("SAMN10492696", [2 # 5]%Q)] two_names eq_refl)).
    exists "SAMN10492696", ("NC_000001.11@20", record_two_populations),
      ("NC_000001.11@10", record_7_3).
    split; [right; left; reflexivity|].
    split; [left; reflexivity|].
    unfold reported, reports; simpl. split; [tauto|].
    intros [E|[]]. discriminate.
  - apply (proj2 (show1_after_translate even_dataset [10; 20]
                    [("SAMN10492695", [2 # 5; 1 # 10]%Q);
                     ("SAMN10492696", [2 # 5; 2 # 5]%Q)] two_names eq_refl)).
    reflexivity.
Defined.

(** ** [show_cross_frequency] *)

Lemma cross_frequency_invariant
    (J : pydict (list Q) -> pydict (list Q) -> Prop) data x y st :
  J [] [] ->
  (forall rx ry a qx qy,
     J rx ry -> J (dict_append a qx rx) (dict_append a qy ry)) ->
  cross_frequency data x y = Ok st ->
  J (res_x st) (res_y st).
Proof.
  unfold cross_frequency. intros Hinit Hstep H.
  apply (for_each_invariant (cf_record x y)
           (fun s => J (res_x s) (res_y s)) data)
    with (st := cf_init); [|exact H | exact Hinit].
  intros s item s' _ Hrec Hs. unfold cf_record in Hrec.
  apply (for_each_invariant (cf_block x y)
           (fun s => J (res_x s) (res_y s)) (counts (snd item)))
    with (st := cf_count s); [|exact Hrec | exact Hs].
  intros s0 block s1 _ Hblock Hs0.
  apply cf_block_returns in Hblock. destruct Hblock as [_ ->].
  unfold block_effect. destruct (no_total x y block); [exact Hs0|].
  unfold block_pairs.
  destruct (dict_get x (allele_counts (snd block))) as [px|]; [|exact Hs0].
  destruct (dict_get y (allele_counts (snd block))) as [py|]; [|exact Hs0].
  unfold cf_pairs.
  apply (fold_left_invariant _ (fun s => J (res_x s) (res_y s)));
    [|exact Hs0].
  intros s2 [a q] _ Hs2. simpl.
  destruct (dict_get a (frequencies py)); [|exact Hs2].
  simpl. apply Hstep, Hs2.
Qed.

Lemma lengths_get {V W} a (d : pydict (list V)) (d' : pydict (list W)) l :
  lengths d = lengths d' ->
  dict_get a d = Some l ->
  exists l', dict_get a d' = Some l' /\ List.length l = List.length l'.
Proof.
  revert d'; induction d as [|[k1 l1] d IH]; intros [|[k2 l2] d'] Hlen Hget;
    try discriminate.
  unfold lengths in Hlen. simpl in Hlen. injection Hlen as <- Hl Hrest.
  simpl in *. destruct (String.eqb a k1).
  - injection Hget as <-. eauto.
  - apply IH; assumption.
Qed.

(** X17.  When [show_cross_frequency] returns, the download has
    returned a dataset, [cross_frequency] has returned for it, and every
    [scatter] call plots, for one allele, the sequence of [res_x] against
    the sequence of [res_y] for that allele: two lists of the same
    length, which is not 0. *)
Theorem show_cross_frequency_plots_aligned_pairs {Srv}
    (get : Srv -> request -> response * Srv) fuel srv meta seq_id start stop
    pop_x pop_y calls :
  show_cross_frequency get fuel srv meta seq_id start stop pop_x pop_y =
    Some (Ok calls) ->
  exists data cf,
    fst (fst (download get fuel srv seq_id start stop)) = Returned data /\
    cross_frequency data pop_x pop_y = Ok cf /\
    forall xs ys allele,
      In (plt_scatter xs ys allele) calls ->
      dict_get allele (res_x cf) = Some xs /\
      dict_get allele (res_y cf) = Some ys /\
      List.length xs = List.length ys /\
      xs <> [].
Proof.
  unfold show_cross_frequency.
  destruct (download get fuel srv seq_id start stop) as [[o log] srv'].
  destruct o as [data|e|d s]; try discriminate.
  destruct (cross_frequency data pop_x pop_y) as [cf|e] eqn:Hcf;
    [|discriminate].
  cbn [bind].
  match goal with
  | |- context [for_each ?body (res_x cf) []] =>
      destruct (for_each body (res_x cf) []) as [calls0|e] eqn:Hloop
  end; [|discriminate].
  cbn [bind]. intros [= <-]. exists data, cf.
  split; [reflexivity | split; [exact Hcf|]].
  pose proof (cross_frequency_invariant
                (fun rx ry =>
                   lengths rx = lengths ry /\ NoDup (keys rx) /\
                   Forall (fun kv => snd kv <> []) rx)
                data pop_x pop_y cf) as Hinv.
  destruct Hinv as (Hlen & Hnd & Hne); [| |exact Hcf|].
  { split; [reflexivity | split; constructor]. }
  { intros rx ry a qx qy (H1 & H2 & H3).
    split; [apply lengths_dict_append, H1|].
    split; [apply NoDup_dict_append, H2|].
    rewrite dict_append_set.
    apply (Forall_values_dict_set (fun l : list Q => l <> [])); [|exact H3].
    intro E. apply app_eq_nil in E. destruct E as [_ E]. discriminate. }
  intros xs ys allele Hin.
  apply in_app_or in Hin. destruct Hin as [Hin|Hin].
  2:{ simpl in Hin.
      repeat (destruct Hin as [Hin|Hin]; [discriminate|]). destruct Hin. }
  revert xs ys allele Hin.
  refine (for_each_invariant _
            (fun c => forall xs ys allele,
               In (plt_scatter xs ys allele) c ->
               dict_get allele (res_x cf) = Some xs /\
               dict_get allele (res_y cf) = Some ys /\
               List.length xs = List.length ys /\ xs <> [])
            (res_x cf) _ [] calls0 Hloop _); [|intros ? ? ? []].
  intros c [a lx] c' Hitem Hbody Hc xs ys allele Hin.
  cbn [fst snd] in Hbody. unfold scatter in Hbody.
  destruct (List.length lx =?
            List.length (dict_get_default a (res_y cf)))%nat;
    [|discriminate].
  cbn [bind] in Hbody.
  destruct (dict_lookup pop_x meta) as [xl|]; [|discriminate].
  destruct (dict_lookup pop_y meta) as [yl|]; [|discriminate].
  cbn [bind] in Hbody. injection Hbody as <-.
  apply in_app_or in Hin. destruct Hin as [Hin|Hin]; [apply Hc, Hin|].
  simpl in Hin. destruct Hin as [E|[E|[E|[]]]]; try discriminate.
  injection E as <- <- <-.
  pose proof (in_NoDup_get a lx (res_x cf) Hnd Hitem) as Hgx.
  destruct (lengths_get a _ _ lx Hlen Hgx) as (ly & Hgy & Hl).
  unfold dict_get_default. rewrite Hgy.
  rewrite Forall_forall in Hne.
  split; [exact Hgx | split; [reflexivity | split; [exact Hl|]]].
  exact (Hne (a, lx) Hitem).
Qed.

Lemma show_cross_frequency_two_records :
  exists data cf,
    fst (fst (download
                (sequence_server (fun _ => page_response 200 two_records))
                3 0%nat "NC_000019.10" 44905384 44909760)) = Returned data /\
    cross_frequency data "SAMN10492695" "SAMN10492696" = Ok cf /\
    forall xs ys allele,
      In (plt_scatter xs ys allele)
        [plt_scatter [2 # 5]%Q [3 # 5]%Q "A";
         plt_xlabel "European"; plt_ylabel "African Others";
         plt_scatter [3 # 5]%Q [2 # 5]%Q "B";
         plt_xlabel "European"; plt_ylabel "African Others";
         plt_title "Cross Allele frequency NC_000019.10, 44905384, 44909760";
         plt_show] ->
      dict_get allele (res_x cf) = Some xs /\
      dict_get allele (res_y cf) = Some ys /\
      List.length xs = List.length ys /\
      xs <> [].
Proof.
  apply (show_cross_frequency_plots_aligned_pairs
           (sequence_server (fun _ => page_response 200 two_records))
           3 0%nat two_names "NC_000019.10" 44905384 44909760
           "SAMN10492695" "SAMN10492696").
  reflexivity.
Defined.

(** ** [download], then [translate] *)

(** X18.  [download] does not read the keys of the complete page, and
    [translate] reads every key: after partial pages with well-formed
    keys and a complete page, [translate] returns for the downloaded
    data when the keys of the complete page are well-formed too, and
    ends with a [ValueError] when one of them is not. *)
Theorem translate_after_download
    responses pages last seq_id start stop fuel :
  (forall i page,
     nth_error pages i = Some page ->
     status_code (responses i) = 206 /\
     json_results (responses i) = Some page /\
     page_keys_ok page = true) ->
  status_code (responses (List.length pages)) = 200 ->
  json_results (responses (List.length pages)) = Some last ->
  (List.length pages < fuel)%nat ->
  exists data log,
    download (sequence_server responses) fuel 0%nat seq_id start stop =
      (Returned data, log, S (List.length pages)) /\
    (page_keys_ok last = true ->
     exists freq, translate data = Ok (page_positions data, freq)) /\
    (page_keys_ok last = false -> translate data = Err ValueError).
Proof.
  intros Hpart Hst Hres Hfuel.
  destruct (download_pages_from responses seq_id stop pages last
              0%nat [] start fuel Hpart Hst Hres Hfuel) as (log & Hrun & _).
  exists (dict_update [] (List.concat (pages ++ [last]))), log.
  split; [exact Hrun|].
  set (data := dict_update [] (List.concat (pages ++ [last]))).
  assert (page_keys_ok data = page_keys_ok last) as Hkeys.
  { unfold page_keys_ok.
    destruct (forallb key_ok (keys last)) eqn:Elast.
    - apply forallb_forall. intros k Hk. unfold data in Hk.
      apply keys_dict_update in Hk. destruct Hk as [[]|Hk].
      apply in_keys_concat in Hk. destruct Hk as (page & Hpage & Hk).
      apply in_app_or in Hpage. destruct Hpage as [Hpage|[<-|[]]].
      + apply In_nth_error in Hpage. destruct Hpage as [i Hi].
        destruct (Hpart i page Hi) as (_ & _ & Hok).
        unfold page_keys_ok in Hok. rewrite forallb_forall in Hok.
        apply Hok, Hk.
      + rewrite forallb_forall in Elast. apply Elast, Hk.
    - destruct (forallb key_ok (keys data)) eqn:Edata; [|reflexivity].
      rewrite forallb_forall in Edata.
      assert (forallb key_ok (keys last) = true) as Habs; [|congruence].
      apply forallb_forall. intros k Hk. apply Edata. unfold data.
      apply keys_dict_update. right. apply in_keys_concat.
      exists last. split; [apply in_or_app; right; left; reflexivity|].
      exact Hk. }
  unfold translate.
  destruct (translate_loop data [] []) as [Hok Hbad].
  rewrite Hkeys in Hok, Hbad. split.
  - intro H. destruct (Hok H) as (freq & Hfreq & _). exists freq. exact Hfreq.
  - exact Hbad.
Qed.

Lemma translate_after_download_malformed :
  exists data log,
    download
      (sequence_server (fun _ => page_response 200 page_malformed))
      1 0%nat "NC_000001.11" 5 100 = (Returned data, log, 1%nat) /\
    (page_keys_ok page_malformed = true ->
     exists freq, translate data = Ok (page_positions data, freq)) /\
    (page_keys_ok page_malformed = false -> translate data = Err ValueError).
Proof.
  apply (translate_after_download
           (fun _ => page_response 200 page_malformed) [] page_malformed
           "NC_000001.11" 5 100 1).
  - intros [|i] page H; discriminate.
  - reflexivity.
  - reflexivity.
  - simpl. lia.
Defined.
